(** * Header-based HTML segmentation: [split_html_on_headers.py]

    A shallow embedding of [split_text_from_file] (the BeautifulSoup based
    splitter) and of the [split_html] pipeline that wraps it, together with
    the properties of the segmentation that the specification states.  The
    splitter is embedded twice: as a function from the parsed tree to the
    chunks, and as statements on a store that holds the lists, dicts and
    [Document]s it creates; the second is shown to compute the first.

    Python [str] values are modelled by [string], one [ascii] per code point
    (code points below 256).  A parsed document is a forest of
    [PageElement]s; the elements that the code navigates from (headers, the
    body) carry their links, as bs4 objects do. *)

From Stdlib Require Import Ascii String.
From stdpp Require Import base option list sorting strings pretty gmap.

#[local] Arguments String.append !_ _ / : simpl nomatch.

(** ** Python string operations *)

Module Str.

(** [str.isspace] on one code point (range 0..255): TAB..CR, FS..US,
    SPACE, NEL and NBSP. *)
Definition isspace (c : ascii) : bool :=
  let n := nat_of_ascii c in
  (((9 <=? n) && (n <=? 13)) || ((28 <=? n) && (n <=? 32))
   || (n =? 133) || (n =? 160))%nat.

(** [bool(s)]: a string is truthy when it is not empty. *)
Definition truthy (s : string) : bool :=
  match s with EmptyString => false | String _ _ => true end.

(** [s.lstrip()] *)
Fixpoint lstrip (s : string) : string :=
  match s with
  | EmptyString => EmptyString
  | String c s' => if isspace c then lstrip s' else s
  end.

(** [s.rstrip()] *)
Fixpoint rstrip (s : string) : string :=
  match s with
  | EmptyString => EmptyString
  | String c s' =>
      let r := rstrip s' in
      if isspace c && negb (truthy r) then EmptyString else String c r
  end.

(** [s.strip()] *)
Definition strip (s : string) : string := rstrip (lstrip s).

(** [sep.join(l)] *)
Fixpoint join (sep : string) (l : list string) : string :=
  match l with
  | [] => EmptyString
  | [s] => s
  | s :: l' => s +:+ sep +:+ join sep l'
  end.

(** [c.lower()] on one code point: A..Z and the Latin-1 capitals. *)
Definition lower_char (c : ascii) : ascii :=
  let n := nat_of_ascii c in
  if (((65 <=? n) && (n <=? 90))
      || ((192 <=? n) && (n <=? 222) && negb (n =? 215)))%nat
  then ascii_of_nat (n + 32) else c.

(** [s.lower()] *)
Fixpoint lower (s : string) : string :=
  match s with
  | EmptyString => EmptyString
  | String c s' => String (lower_char c) (lower s')
  end.

(** [needle in s] *)
Fixpoint contains (needle s : string) : bool :=
  String.prefix needle s
  || match s with
     | EmptyString => false
     | String _ s' => contains needle s'
     end.

End Str.

(** ** The parsed tree *)

(** The classes in which bs4 keeps the strings of some elements apart from
    ordinary text: [Script], [Stylesheet], [TemplateString],
    [RubyTextString] and [RubyParenthesisString]. *)
Inductive string_class : Type :=
  | Script
  | Stylesheet
  | TemplateString
  | RubyTextString
  | RubyParenthesisString.

#[global] Instance string_class_eq_dec : EqDecision string_class.
Proof. solve_decision. Defined.

(** [builder.string_containers.get(name)] of the HTML tree builders: the
    class of the strings parsed inside an element of that name. *)
Definition string_containers (name : string) : option string_class :=
  if String.eqb name "rt" then Some RubyTextString
  else if String.eqb name "rp" then Some RubyParenthesisString
  else if String.eqb name "style" then Some Stylesheet
  else if String.eqb name "script" then Some Script
  else if String.eqb name "template" then Some TemplateString
  else None.

(** A node of the tree built by [BeautifulSoup(html_content, 'html.parser')]:
    a [Tag] with its name and contents; a [NavigableString] (ordinary text,
    also [CData]); a [Comment] (standing for the string classes that
    [get_text] never yields: comments, doctypes, declarations); or a
    [ContainedString], a string of one of the classes above, as the parser
    makes them inside [script], [style], [template], [rt] and [rp]
    elements.  Attributes play no part in the splitter and are left out. *)
#[warnings="-register-all"]
Inductive PageElement : Type :=
  | Tag (name : string) (contents : list PageElement)
  | NavigableString (s : string)
  | Comment (s : string)
  | ContainedString (cls : string_class) (s : string).

(** The [BeautifulSoup] object is the root; it is given by its contents. *)
Abbreviation BeautifulSoup := (list PageElement).

(** [isinstance(elem, bs4.Tag)] *)
Definition is_Tag (e : PageElement) : bool :=
  match e with Tag _ _ => true | _ => false end.

(** [elem.name]; [None] for strings. *)
Definition name_of (e : PageElement) : option string :=
  match e with Tag n _ => Some n | _ => None end.

(** [elem.name in names] *)
Definition name_in (names : list string) (e : PageElement) : bool :=
  match name_of e with
  | Some n => bool_decide (n ∈ names)
  | None => false
  end.

(** [tag.interesting_string_types]: [None] stands for the default,
    [(NavigableString, CData)]; [Some k] for the single class [k] of an
    element named in [string_containers]. *)
Definition interesting_string_types (e : PageElement) : option string_class :=
  match e with
  | Tag n _ => string_containers n
  | _ => None
  end.

(** What [_all_strings] yields for one string with [strip=True]: the
    stripped string, unless it is empty. *)
Definition stripped (s : string) : list string :=
  let s' := Str.strip s in if Str.truthy s' then [s'] else [].

(** The strings that [_all_strings(strip=True, types=types)] yields below
    an element: the descendants whose class is in [types], stripped, the
    empty ones skipped. *)
Fixpoint strings_of (types : option string_class) (e : PageElement)
    : list string :=
  match e with
  | Tag _ cs => concat (map (strings_of types) cs)
  | NavigableString s =>
      match types with None => stripped s | Some _ => [] end
  | Comment _ => []
  | ContainedString k s =>
      match types with
      | Some k' => if decide (k = k') then stripped s else []
      | None => []
      end
  end.

(** The strings [get_text(strip=True)] iterates over: those of the
    interesting classes of the element it is called on. *)
Definition all_strings (e : PageElement) : list string :=
  strings_of (interesting_string_types e) e.

(** [elem.get_text(separator=' ', strip=True)] *)
Definition get_text (e : PageElement) : string :=
  Str.join " " (all_strings e).

(** The root object, as the element whose text [soup.get_text] extracts. *)
Definition document (soup : BeautifulSoup) : PageElement :=
  Tag "[document]" soup.

(** Document order: an element, then its descendants (the order in which
    the parser creates them). *)
Fixpoint preorder (e : PageElement) : list PageElement :=
  e :: match e with
       | Tag _ cs => concat (map preorder cs)
       | _ => []
       end.

(** An element together with its links: [.parents] (enclosing tags, nearest
    first), [.previous_elements] (everything parsed before it, nearest
    first) and [.next_siblings]. *)
Record Element : Type := mkElement {
  node : PageElement;
  parents : list PageElement;
  previous_elements : list PageElement;
  next_siblings : list PageElement
}.

Section Children.
Variable locate :
  PageElement → list PageElement → list PageElement → list Element.

(** The elements of a run of siblings [cs], where [prev] is what was
    parsed before the first of them. *)
Fixpoint locate_children (cs prev : list PageElement) : list Element :=
  match cs with
  | [] => []
  | c :: cs' =>
      locate c prev cs'
      ++ locate_children cs' (reverse (preorder c) ++ prev)
  end.
End Children.

(** [e] with its links, followed by its descendants with theirs. *)
Fixpoint locate (ps : list PageElement) (e : PageElement)
    (prev sibs : list PageElement) : list Element :=
  mkElement e ps prev sibs ::
  match e with
  | Tag _ cs => locate_children (locate (e :: ps)) cs (e :: prev)
  | _ => []
  end.

(** [elem.descendants] *)
Definition descendants (el : Element) : list Element :=
  match node el with
  | Tag _ cs =>
      locate_children (locate (node el :: parents el)) cs
        (node el :: previous_elements el)
  | _ => []
  end.

(** [soup.descendants]: the root object is outside the next/previous chain,
    so nothing precedes its first child. *)
Definition soup_descendants (soup : BeautifulSoup) : list Element :=
  locate_children (locate []) soup [].

(** [find_all(names)] over a stream of elements, for a list of names that
    is not empty, as it is at both calls of the code ([soup.body] looks for
    the one name [body], and the constant of the module names three tags):
    the elements whose name is one of [names].  (Given an empty list, bs4
    puts no condition on the name.) *)
Definition find_all (names : list string) (scope : list Element)
    : list Element :=
  filter (λ el, name_in names (node el) = true) scope.

(** [soup.body], that is [soup.find("body")]. *)
Definition soup_body (soup : BeautifulSoup) : option Element :=
  head (find_all ["body"] (soup_descendants soup)).

(** [elem.find_all_previous()]: the tags among the previous elements. *)
Definition find_all_previous (el : Element) : list PageElement :=
  filter (λ e, is_Tag e = true) (previous_elements el).

(** [elem.find_next_siblings()]: the tags among the next siblings. *)
Definition find_next_siblings (el : Element) : list PageElement :=
  filter (λ e, is_Tag e = true) (next_siblings el).

(** ** The splitter *)

(** [langchain]'s [Document(page_content=..., metadata=...)]. *)
Record Document : Type := mkDocument {
  page_content : string;
  metadata : gmap string string
}.

(** The module-level constant. *)
Definition HEADERS_TO_SPLIT_ON : list (string * string) :=
  [("h1", "Header 1"); ("h2", "Header 2"); ("h3", "Header 3")].

(** [dict(pairs)]: later pairs overwrite earlier ones. *)
Definition dict (pairs : list (string * string)) : gmap string string :=
  fold_left (λ m kv, <[kv.1 := kv.2]> m) pairs ∅.

Section Segmenter.

(** The header specification; the code reads the module constant
    [HEADERS_TO_SPLIT_ON] at every call. *)
Variable spec : list (string * string).

(** [[tag[0] for tag in HEADERS_TO_SPLIT_ON]] *)
Definition headers_to_split_on : list string := map fst spec.

(** [dict(HEADERS_TO_SPLIT_ON)] *)
Definition header_mapping : gmap string string := dict spec.

(** [body = soup.body if soup.body else soup], as the stream of its
    descendants and as the node whose text is extracted. *)
Definition body_descendants (soup : BeautifulSoup) : list Element :=
  match soup_body soup with
  | Some body => descendants body
  | None => soup_descendants soup
  end.

Definition body_node (soup : BeautifulSoup) : PageElement :=
  match soup_body soup with
  | Some body => node body
  | None => document soup
  end.

(** [all_headers = body.find_all(headers_to_split_on)] *)
Definition all_headers (soup : BeautifulSoup) : list Element :=
  find_all headers_to_split_on (body_descendants soup).

(** The loop over [first_header.find_all_previous()]. *)
Definition pre_header_content (first_header : Element) : string :=
  fold_left
    (λ pre_header_content elem,
       if is_Tag elem then
         let text := get_text elem in
         if Str.truthy text then (text +:+ " ") +:+ pre_header_content
         else pre_header_content
       else pre_header_content)
    (find_all_previous first_header) "".

(** The loop over [header.find_next_siblings()], with its [break]. *)
Fixpoint collect_content (siblings content_elements : list PageElement)
    : list PageElement :=
  match siblings with
  | [] => content_elements
  | sibling :: siblings' =>
      if name_in headers_to_split_on sibling then content_elements
      else if is_Tag sibling
           then collect_content siblings' (content_elements ++ [sibling])
           else collect_content siblings' content_elements
  end.

(** The loop over [content_elements]. *)
Definition join_content (content_elements : list PageElement) : string :=
  fold_left
    (λ current_content elem,
       let text := get_text elem in
       if Str.truthy text then current_content +:+ (text +:+ " ")
       else current_content)
    content_elements "".

(** [current_content] of one header. *)
Definition current_content (header : Element) : string :=
  join_content (collect_content (find_next_siblings header) []).

(** One iteration of the loop over [all_headers]; [None] stands for the
    [KeyError] of [header_mapping[header_name]]. *)
Definition header_document (header : Element) : option Document :=
  header_name ← name_of (node header);
  let header_text := get_text (node header) in
  label ← header_mapping !! header_name;
  let current_metadata : gmap string string := <[label := header_text]> ∅ in
  let current_content := current_content header in
  if Str.truthy (Str.strip current_content)
  then Some (mkDocument (Str.strip current_content) current_metadata)
  else Some (mkDocument "" current_metadata).

(** The loop over [all_headers], appending to [documents]. *)
Fixpoint process_headers (headers : list Element)
    (documents : list Document) : option (list Document) :=
  match headers with
  | [] => Some documents
  | header :: headers' =>
      d ← header_document header;
      process_headers headers' (documents ++ [d])
  end.

(** [split_text_from_file], from the parsed [soup] on. *)
Definition split_text_from_file (soup : BeautifulSoup)
    : option (list Document) :=
  match all_headers soup with
  | first_header :: _ =>
      let pre_header_content := pre_header_content first_header in
      let documents :=
        if Str.truthy (Str.strip pre_header_content)
        then [mkDocument (Str.strip pre_header_content) ∅]
        else [] in
      process_headers (all_headers soup) documents
  | [] =>
      let full_text := get_text (body_node soup) in
      if Str.truthy (Str.strip full_text)
      then Some [mkDocument (Str.strip full_text) ∅]
      else Some []
  end.

End Segmenter.

(** ** The objects that the splitter creates *)

Module Store.

(** The parsed tree is only read by the splitter: [find_all],
    [find_all_previous], [find_next_siblings], [get_text] and [.name]
    change nothing, so the tree stays the value it is above.  What the
    splitter creates and changes (lists, dicts and [Document]s) lives in a
    store, as does the list that the module-level name
    [HEADERS_TO_SPLIT_ON] is bound to.  Strings are immutable and are
    kept by value. *)

(** The identity of an object. *)
Abbreviation addr := nat.

(** What a list holds: a string, a tuple of two strings, a node of the
    parsed tree, or an object of the store. *)
Inductive value : Type :=
  | VStr (s : string)
  | VPair (first second : string)
  | VNode (e : PageElement)
  | VRef (a : addr).

(** A [list], a [dict] with strings as keys and values, or a [Document]
    with its text and its [metadata] object. *)
Inductive object : Type :=
  | ListObj (items : list value)
  | DictObj (entries : gmap string string)
  | DocumentObj (page_content : string) (metadata : addr).

(** The objects created so far, in the order of their creation; the
    identity of an object is its place. *)
Abbreviation store := (list object).

(** [KeyError], and [TypeError] for an operation on an object of another
    kind. *)
Inductive exn : Type := KeyError | TypeError.

(** Statements: they raise or return, and change the store. *)
Definition St (A : Type) : Type := store → (exn + A) * store.

#[export] Instance St_ret : MRet St := λ A a h, (inr a, h).

#[export] Instance St_bind : MBind St := λ A B k m h,
  match m h with
  | (inl e, h') => (inl e, h')
  | (inr a, h') => k a h'
  end.

Definition raise {A : Type} (e : exn) : St A := λ h, (inl e, h).

(** The creation of an object: [[]], [{}], [Document(...)]. *)
Definition alloc (o : object) : St addr := λ h, (inr (length h), h ++ [o]).

(** The items of a list, for [for x in l] and [x in l]. *)
Definition items_of (l : addr) : St (list value) := λ h,
  match h !! l with
  | Some (ListObj items) => (inr items, h)
  | _ => (inl TypeError, h)
  end.

(** [l.append(v)] *)
Definition append (l : addr) (v : value) : St unit := λ h,
  match h !! l with
  | Some (ListObj items) => (inr tt, <[l := ListObj (items ++ [v])]> h)
  | _ => (inl TypeError, h)
  end.

(** [d[key]]; the key [None] stands for a key that is not a string, which
    no [dict] here has. *)
Definition getitem (d : addr) (key : option string) : St string := λ h,
  match h !! d with
  | Some (DictObj entries) =>
      match key ≫= (entries !!.) with
      | Some v => (inr v, h)
      | None => (inl KeyError, h)
      end
  | _ => (inl TypeError, h)
  end.

(** [d[key] = v] *)
Definition setitem (d : addr) (key v : string) : St unit := λ h,
  match h !! d with
  | Some (DictObj entries) =>
      (inr tt, <[d := DictObj (<[key := v]> entries)]> h)
  | _ => (inl TypeError, h)
  end.

(** [d.copy()] *)
Definition copy (d : addr) : St addr := λ h,
  match h !! d with
  | Some (DictObj entries) => alloc (DictObj entries) h
  | _ => (inl TypeError, h)
  end.

(** [for x in l: body] over the items read from a list *)
Fixpoint for_each {A : Type} (l : list A) (body : A → St unit) : St unit :=
  match l with
  | [] => mret tt
  | x :: l' => body x;; for_each l' body
  end.

(** The items of a list of tuples, of strings and of nodes. *)
Definition as_pair (v : value) : option (string * string) :=
  match v with VPair first second => Some (first, second) | _ => None end.

Definition as_str (v : value) : option string :=
  match v with VStr s => Some s | _ => None end.

Definition as_node (v : value) : option PageElement :=
  match v with VNode e => Some e | _ => None end.

Definition read {A : Type} (as_A : value → option A) (l : addr)
    : St (list A) :=
  items ← items_of l;
  match mapM as_A items with
  | Some xs => mret xs
  | None => raise TypeError
  end.

(** [name in l], for a list of strings. *)
Definition contains (l : addr) (name : option string) : St bool :=
  names ← read as_str l;
  mret (match name with
        | Some n => bool_decide (n ∈ names)
        | None => false
        end).

(** The list of tuples that a specification is as an object. *)
Definition tuples (spec : list (string * string)) : object :=
  ListObj ((λ tag, VPair tag.1 tag.2) <$> spec).

(** The [Document] that a value refers to, read from the store. *)
Definition document_at (h : store) (v : value) : option Document :=
  match v with
  | VRef d =>
      match h !! d with
      | Some (DocumentObj page_content m) =>
          match h !! m with
          | Some (DictObj entries) => Some (mkDocument page_content entries)
          | _ => None
          end
      | _ => None
      end
  | _ => None
  end.

(** The chunks held by the list [documents] of the store. *)
Definition documents_at (h : store) (documents : addr)
    : option (list Document) :=
  match h !! documents with
  | Some (ListObj items) => mapM (document_at h) items
  | _ => None
  end.

(** Every object of [h] is in [h'] as it is in [h]. *)
Definition intact (h h' : store) : Prop :=
  ∀ a o, h !! a = Some o → h' !! a = Some o.

(** The same, but for the one object [l]. *)
Definition intact_but (l : addr) (h h' : store) : Prop :=
  ∀ a o, h !! a = Some o → a ≠ l → h' !! a = Some o.

End Store.

(** ** The splitter on the store *)

Module Stateful.
Import Store.

Section Program.

(** The object that the module-level name [HEADERS_TO_SPLIT_ON] is bound
    to. *)
Variable HEADERS_TO_SPLIT_ON : addr.

(** [[tag[0] for tag in HEADERS_TO_SPLIT_ON]]: one new list. *)
Definition tag_names : St addr :=
  tags ← read as_pair HEADERS_TO_SPLIT_ON;
  alloc (ListObj (VStr <$> map fst tags)).

(** [dict(HEADERS_TO_SPLIT_ON)]: one new dict. *)
Definition tag_labels : St addr :=
  tags ← read as_pair HEADERS_TO_SPLIT_ON;
  alloc (DictObj (dict tags)).

(** [documents.append(Document(page_content=..., metadata=...))] *)
Definition append_document (documents : addr) (page_content : string)
    (metadata : addr) : St unit :=
  document ← alloc (DocumentObj page_content metadata);
  append documents (VRef document).

(** The loop over [header.find_next_siblings()], with its [break]. *)
Fixpoint collect_content (headers_to_split_on content_elements : addr)
    (siblings : list PageElement) : St unit :=
  match siblings with
  | [] => mret tt
  | sibling :: siblings' =>
      is_header ← contains headers_to_split_on (name_of sibling);
      if is_header : bool then mret tt
      else
        (if is_Tag sibling
         then append content_elements (VNode sibling)
         else mret tt);;
        collect_content headers_to_split_on content_elements siblings'
  end.

(** One iteration of the loop over [all_headers]. *)
Definition header_document
    (headers_to_split_on header_mapping documents : addr)
    (header : Element) : St unit :=
  current_metadata ← alloc (DictObj ∅);
  let header_name := name_of (node header) in
  let header_text := get_text (node header) in
  label ← getitem header_mapping header_name;
  setitem current_metadata label header_text;;
  content_elements ← alloc (ListObj []);
  collect_content headers_to_split_on content_elements
    (find_next_siblings header);;
  elems ← read as_node content_elements;
  let current_content := join_content elems in
  if Str.truthy (Str.strip current_content) then
    metadata ← copy current_metadata;
    append_document documents (Str.strip current_content) metadata
  else
    metadata ← copy current_metadata;
    append_document documents "" metadata.

(** [split_text_from_file], from the parsed [soup] on; it returns the list
    [documents]. *)
Definition split_text_from_file (soup : BeautifulSoup) : St addr :=
  headers_to_split_on ← tag_names;
  header_mapping ← tag_labels;
  documents ← alloc (ListObj []);
  names ← read as_str headers_to_split_on;
  let all_headers := find_all names (body_descendants soup) in
  match all_headers with
  | first_header :: _ =>
      let pre_header_content := pre_header_content first_header in
      (if Str.truthy (Str.strip pre_header_content) then
         metadata ← alloc (DictObj ∅);
         append_document documents (Str.strip pre_header_content) metadata
       else mret tt);;
      for_each all_headers
        (header_document headers_to_split_on header_mapping documents);;
      mret documents
  | [] =>
      let full_text := get_text (body_node soup) in
      (if Str.truthy (Str.strip full_text) then
         metadata ← alloc (DictObj ∅);
         append_document documents (Str.strip full_text) metadata
       else mret tt);;
      mret documents
  end.

End Program.

End Stateful.

(** ** The pipeline around the splitter *)

Module Pipeline.

(** Exceptions, by the handler that catches them: [FileNotFoundError],
    every other instance of [Exception], and what is only a
    [BaseException] ([KeyboardInterrupt], [SystemExit]). *)
Inductive exn : Type :=
  | FileNotFoundError (msg : string)
  | Exception (msg : string)
  | BaseException (msg : string).

(** [isinstance(e, Exception)] *)
Definition is_Exception (e : exn) : bool :=
  match e with BaseException _ => false | _ => true end.

(** [str(e)] *)
Definition str_exn (e : exn) : string :=
  match e with
  | FileNotFoundError msg | Exception msg | BaseException msg => msg
  end.

Inductive level : Type := INFO | WARNING | ERROR.

(** The line feed. *)
Definition nl : string := String (ascii_of_nat 10) "".

(** Truth value of an optional string argument ([None] or a [str]). *)
Definition truthy_opt (o : option string) : bool :=
  match o with Some s => Str.truthy s | None => false end.

Section World.
Context {World : Type}.

(** What the code acts on: the world outside (files, terminal) and the
    records of [logger]. *)
Record state : Type := mkState {
  world : World;
  logged : list (level * string)
}.

(** An operation of the world outside: it raises or returns. *)
Definition op (A : Type) : Type := World → (exn + A) * World.

(** Computations that raise or return, over the state. *)
Definition M (A : Type) : Type := state → (exn + A) * state.

#[export] Instance M_ret : MRet M := λ A a st, (inr a, st).

#[export] Instance M_bind : MBind M := λ A B k m st,
  match m st with
  | (inl e, st') => (inl e, st')
  | (inr a, st') => k a st'
  end.

Definition raise {A : Type} (e : exn) : M A := λ st, (inl e, st).

Definition lift {A : Type} (f : op A) : M A := λ st,
  let (r, w) := f (world st) in (r, mkState w (logged st)).

(** [logger.info], [logger.warning], [logger.error] *)
Definition logger (lv : level) (msg : string) : M unit := λ st,
  (inr tt, mkState (world st) (logged st ++ [(lv, msg)])).

(** [try: body / except FileNotFoundError: h1 / except Exception as e: h2] *)
Definition try_except {A : Type} (body : M A)
    (on_FileNotFoundError : M A) (on_Exception : exn → M A) : M A := λ st,
  match body st with
  | (inr a, st') => (inr a, st')
  | (inl (FileNotFoundError msg), st') => on_FileNotFoundError st'
  | (inl (Exception msg), st') => on_Exception (Exception msg) st'
  | (inl (BaseException msg), st') => (inl (BaseException msg), st')
  end.

(** The library and system calls of the pipeline. *)
Record Env : Type := mkEnv {
  (** [with open(path, "r", encoding="utf-8") as f: f.read()] *)
  open_read : string → op string;
  (** [BeautifulSoup(html, "html.parser")] *)
  parse : string → op BeautifulSoup;
  (** [soup.find(target_tag, class_=target_class)] on the parse of the
      given html, and [str(section)] of what is found *)
  find_section : string → string → string → op (option string);
  (** [with open(path, "wb") as f: pickle.dump(splits, f)] *)
  pickle_dump : list Document → string → op unit;
  (** [with open(path, "w", encoding="utf-8") as f: f.write(...)] *)
  write_text : string → string → op unit;
  (** [os.name] and [os.system(command)] *)
  os_name : string;
  os_system : string → op unit;
  (** [print(...)] of a string and of a metadata mapping *)
  print : string → op unit;
  print_metadata : gmap string string → op unit;
  (** [input(prompt)] *)
  input : string → op string;
  (** [str(metadata)] *)
  str_metadata : gmap string string → string
}.

Variable env : Env.

Definition preprocess_html (html_string : string)
    (target_tag target_class : option string) : M string :=
  _ ← lift (parse env html_string);
  if truthy_opt target_tag && truthy_opt target_class then
    let tag := default "" target_tag in
    let cls := default "" target_class in
    logger INFO
      ("Filtering content within <" +:+ tag +:+ " class='" +:+ cls +:+ "'>");;
    section ← lift (find_section env html_string tag cls);
    match section with
    | Some str_section => mret str_section
    | None =>
        logger WARNING
          ("No matching <" +:+ tag +:+ " class='" +:+ cls
           +:+ "'> found in the HTML.");;
        mret ""
    end
  else
    logger INFO "No specific target specified; processing full HTML content.";;
    mret html_string.

(** [split_text_from_file(file)] when [file] is a path: the file is read
    and parsed, then split. *)
Definition split_text_from_file_path (file : string) : M (list Document) :=
  html_content ← lift (open_read env file);
  soup ← lift (parse env html_content);
  match split_text_from_file HEADERS_TO_SPLIT_ON soup with
  | Some documents => mret documents
  | None => raise (Exception "KeyError")
  end.

(** The interactive question about one split: is it kept? *)
Definition review (split : Document) : M bool :=
  lift (os_system env
          (if String.eqb (os_name env) "nt" then "cls" else "clear"));;
  lift (print env "=====");;
  lift (print_metadata env (metadata split));;
  lift (print env (page_content split));;
  user_input ←
    lift (input env "Press <Enter> to keep this split, <d> to disregard: ");
  mret (negb (String.eqb (Str.lower user_input) "d")).

(** The loop over [html_header_splits]. *)
Fixpoint select_splits (drop_empty_metadata interactive : bool)
    (html_header_splits all_html_header_splits : list Document)
    : M (list Document) :=
  match html_header_splits with
  | [] => mret all_html_header_splits
  | split :: rest =>
      if drop_empty_metadata && bool_decide (metadata split = ∅) then
        logger INFO
          ("Dropping split with empty metadata: " +:+ page_content split);;
        select_splits drop_empty_metadata interactive rest
          all_html_header_splits
      else
        (if interactive then review split else mret true) ≫= λ keep : bool,
        select_splits drop_empty_metadata interactive rest
          (if keep then all_html_header_splits ++ [split]
           else all_html_header_splits)
  end.

(** What is written to the text file. *)
Definition render (splits : list Document) : string :=
  foldr
    (λ header_split rest,
       ("=====" +:+ nl) +:+ (str_metadata env (metadata header_split) +:+ nl)
       +:+ (page_content header_split +:+ nl) +:+ rest)
    "" splits.

(** The body of the [try] statement of [split_html]. *)
Definition split_html_body (file_path output_pkl output_txt : string)
    (interactive : bool) (target_tag target_class : option string)
    (drop_empty_metadata : bool) : M unit :=
  html_string ← lift (open_read env file_path);
  preprocessed_html ← preprocess_html html_string target_tag target_class;
  if negb (Str.truthy (Str.strip preprocessed_html)) then
    logger WARNING "Preprocessed HTML is empty. No splits generated.";;
    lift (pickle_dump env [] output_pkl);;
    lift (write_text env output_txt "")
  else
    html_header_splits ← split_text_from_file_path file_path;
    all_html_header_splits ←
      select_splits drop_empty_metadata interactive html_header_splits [];
    lift (pickle_dump env all_html_header_splits output_pkl);;
    logger INFO ("Serialized splits saved to " +:+ output_pkl);;
    lift (write_text env output_txt (render all_html_header_splits));;
    logger INFO ("Split contents saved to " +:+ output_txt);;
    logger INFO
      ("Number of header splits: "
       +:+ pretty (length all_html_header_splits)).

Definition split_html (file_path output_pkl output_txt : string)
    (interactive : bool) (target_tag target_class : option string)
    (drop_empty_metadata : bool) : M unit :=
  try_except
    (split_html_body file_path output_pkl output_txt interactive
       target_tag target_class drop_empty_metadata)
    (logger ERROR ("File not found: " +:+ file_path))
    (λ e, logger ERROR ("An error occurred: " +:+ str_exn e)).

(** The record that the handlers of [split_html] leave for [e]. *)
Definition error_record (file_path : string) (e : exn) : level * string :=
  match e with
  | FileNotFoundError _ => (ERROR, "File not found: " +:+ file_path)
  | _ => (ERROR, "An error occurred: " +:+ str_exn e)
  end.

(** An operation, or a computation, that raises instances of [Exception]
    only. *)
Definition tame_op {A : Type} (f : op A) : Prop :=
  ∀ w e, (f w).1 = inl e → is_Exception e = true.

Definition tame {A : Type} (m : M A) : Prop :=
  ∀ st e, (m st).1 = inl e → is_Exception e = true.

Definition tame_env : Prop :=
  (∀ path, tame_op (open_read env path))
  ∧ (∀ html, tame_op (parse env html))
  ∧ (∀ html tag cls, tame_op (find_section env html tag cls))
  ∧ (∀ splits path, tame_op (pickle_dump env splits path))
  ∧ (∀ path text, tame_op (write_text env path text))
  ∧ (∀ command, tame_op (os_system env command))
  ∧ (∀ text, tame_op (print env text))
  ∧ (∀ m, tame_op (print_metadata env m))
  ∧ (∀ prompt, tame_op (input env prompt)).

End World.

#[global] Arguments state : clear implicits.
#[global] Arguments Env : clear implicits.

(** A world without files: every [open] raises [FileNotFoundError]. *)
Definition no_files : Env unit :=
  {| open_read := λ path (w : unit), (inl (FileNotFoundError path), w);
     parse := λ html (w : unit), (inr [], w);
     find_section := λ html tag cls (w : unit), (inr None, w);
     pickle_dump := λ splits path (w : unit), (inl (FileNotFoundError path), w);
     write_text := λ path text (w : unit), (inl (FileNotFoundError path), w);
     os_name := "posix";
     os_system := λ command (w : unit), (inr tt, w);
     print := λ text (w : unit), (inr tt, w);
     print_metadata := λ m (w : unit), (inr tt, w);
     input := λ prompt (w : unit), (inr "", w);
     str_metadata := λ m, "" |}.

(** A world with the one document [<h1>A</h1>], in which the user
    interrupts the interactive question. *)
Definition interrupted : Env unit :=
  {| open_read := λ path (w : unit), (inr "<h1>A</h1>", w);
     parse := λ html (w : unit), (inr [Tag "h1" [NavigableString "A"]], w);
     find_section := λ html tag cls (w : unit), (inr None, w);
     pickle_dump := λ splits path (w : unit), (inr tt, w);
     write_text := λ path text (w : unit), (inr tt, w);
     os_name := "posix";
     os_system := λ command (w : unit), (inr tt, w);
     print := λ text (w : unit), (inr tt, w);
     print_metadata := λ m (w : unit), (inr tt, w);
     input := λ prompt (w : unit), (inl (BaseException "KeyboardInterrupt"), w);
     str_metadata := λ m, "" |}.

End Pipeline.

(** ** Vocabulary of the statements *)

(** A string with no white space at either end. *)
Definition clean (s : string) : Prop := Str.lstrip s = s ∧ Str.rstrip s = s.

(** A text that is stripped and not empty. *)
Definition solid (s : string) : Prop := clean s ∧ Str.truthy s = true.

(** Each text followed by one space, as the loops build it. *)
Definition spaced (l : list string) : string :=
  foldr (λ t acc, (t +:+ " ") +:+ acc) "" l.

(** The non-empty texts of the tags of [l], in the order of [l]. *)
Definition tag_texts (l : list PageElement) : list string :=
  filter (λ t, Str.truthy t = true)
    (map get_text (filter (λ e, is_Tag e = true) l)).

(** The run of [siblings] in front of the first one named in [names]. *)
Fixpoint before_header (names : list string) (siblings : list PageElement)
    : list PageElement :=
  match siblings with
  | [] => []
  | sibling :: siblings' =>
      if name_in names sibling then []
      else sibling :: before_header names siblings'
  end.

(** The place of an element in document order: how many elements were
    parsed before it. *)
Definition position (el : Element) : nat := length (previous_elements el).

(** [a] comes before [b] in the document. *)
Definition precedes (a b : Element) : Prop := position a < position b.

Section Vocabulary.
Variable spec : list (string * string).

(** The text of the chunk that [header] introduces: the texts of the tag
    siblings after it, up to the next header sibling, joined by spaces. *)
Definition chunk_text (header : Element) : string :=
  Str.join " "
    (tag_texts
       (before_header (headers_to_split_on spec) (next_siblings header))).

(** [d] is the chunk introduced by [header]: one metadata entry, the
    label of the header's tag with the header's own text. *)
Definition chunk_of (header : Element) (d : Document) : Prop :=
  ∃ header_name label,
    name_of (node header) = Some header_name
    ∧ header_mapping spec !! header_name = Some label
    ∧ metadata d = {[ label := get_text (node header) ]}
    ∧ page_content d = chunk_text header.

(** A header: a tag named in the specification. *)
Definition is_header (el : Element) : Prop :=
  ∃ n, name_of (node el) = Some n ∧ n ∈ headers_to_split_on spec.

(** The texts that make up the pre-header chunk: the non-empty texts of
    the tags parsed before [first_header], in document order. *)
Definition pre_header_texts (first_header : Element) : list string :=
  tag_texts (reverse (previous_elements first_header)).

(** The pre-header part of the output. *)
Definition pre_header_chunk (first_header : Element) : list Document :=
  match pre_header_texts first_header with
  | [] => []
  | texts => [mkDocument (Str.join " " texts) ∅]
  end.
End Vocabulary.

(** The [.parents] of an element are tags that were parsed before it. *)
Definition linked (ps prev : list PageElement) : Prop :=
  Forall (λ p, is_Tag p = true ∧ p ∈ prev) ps.

Definition well_linked (el : Element) : Prop :=
  linked (parents el) (previous_elements el).

(** The [.parents] of an element are nodes that contain it. *)
Definition inside (e : PageElement) (ps : list PageElement) : Prop :=
  Forall (λ p, e ∈ preorder p) ps.

Definition enclosed (el : Element) : Prop := inside (node el) (parents el).

(** Two runs of nodes with the same tags, in the same order. *)
Definition same_tags (l1 l2 : list PageElement) : Prop :=
  filter (λ e, is_Tag e = true) l1 = filter (λ e, is_Tag e = true) l2.

(** Two nodes that are equal, or that are both strings. *)
Definition alike (a b : PageElement) : Prop :=
  a = b ∨ (is_Tag a = false ∧ is_Tag b = false).

(** Two elements that differ at most in strings that stand at the top level
    of what was parsed before them, and among their siblings. *)
Definition similar (a b : Element) : Prop :=
  alike (node a) (node b)
  ∧ same_tags (previous_elements a) (previous_elements b)
  ∧ same_tags (next_siblings a) (next_siblings b).

Definition twin (a b : Element) : Prop :=
  node a = node b
  ∧ same_tags (previous_elements a) (previous_elements b)
  ∧ same_tags (next_siblings a) (next_siblings b).

(** ** The text of a document without headers *)

(** The first node of [l] that is a tag named [name]. *)
Fixpoint first_named (name : string) (l : list PageElement)
    : option PageElement :=
  match l with
  | [] => None
  | e :: l' =>
      if bool_decide (name_of e = Some name) then Some e
      else first_named name l'
  end.

(** The subtree that the splitter scans: the first [body] tag of the
    document, in document order, and the whole document when it has
    none. *)
Definition scanned_subtree (soup : BeautifulSoup) : PageElement :=
  default (document soup) (first_named "body" (concat (map preorder soup))).

(** The string of a node of ordinary text. *)
Definition text_of (e : PageElement) : option string :=
  match e with NavigableString s => Some s | _ => None end.

(** The text strings of a subtree as the parser found them, in document
    order: ordinary text, not comments and not the strings that are kept
    in classes of their own. *)
Definition text_strings (e : PageElement) : list string :=
  omap text_of (preorder e).

(** The texts of a subtree: its text strings without the white space at
    their ends, those that are empty then left out.  White space inside a
    string stays as it is. *)
Definition texts (e : PageElement) : list string :=
  filter (λ t, Str.truthy t = true) (map Str.strip (text_strings e)).

(** The words of a string, [s.split()]: the runs of characters between
    white space; [word] is the run read so far. *)
Fixpoint words_from (word s : string) : list string :=
  match s with
  | EmptyString => if Str.truthy word then [word] else []
  | String c s' =>
      if Str.isspace c
      then if Str.truthy word then word :: words_from "" s'
           else words_from "" s'
      else words_from (word +:+ String c "") s'
  end.

Definition words (s : string) : list string := words_from "" s.

(** The specification's "visible text" of a subtree: its text strings,
    put together as they stand. *)
Definition spec_visible_text (e : PageElement) : string :=
  Str.join "" (text_strings e).

(** The specification's "whitespace-normalized" text: every run of white
    space made one space, none left at the ends. *)
Definition spec_whitespace_normalized (s : string) : string :=
  Str.join " " (words s).

(** ** Sample documents *)

Module Samples.

(** [<p>intro</p><h1>A</h1><p>body</p>] *)
Definition intro_doc : BeautifulSoup :=
  [Tag "p" [NavigableString "intro"];
   Tag "h1" [NavigableString "A"];
   Tag "p" [NavigableString "body"]].


(** [<body><p>intro</p><h1>A</h1><p>body</p></body>] *)
Definition intro_in_body : BeautifulSoup := [Tag "body" intro_doc].

Definition intro_in_body_h1 : Element :=
  mkElement (Tag "h1" [NavigableString "A"]) [Tag "body" intro_doc]
    [NavigableString "intro"; Tag "p" [NavigableString "intro"];
     Tag "body" intro_doc]
    [Tag "p" [NavigableString "body"]].



(** [<h1>A</h1><p>x</p><h3>C</h3><p>y</p><h2>B</h2>] *)
Definition mixed_levels : BeautifulSoup :=
  [Tag "h1" [NavigableString "A"]; Tag "p" [NavigableString "x"];
   Tag "h3" [NavigableString "C"]; Tag "p" [NavigableString "y"];
   Tag "h2" [NavigableString "B"]].

Definition mixed_levels_h1 : Element :=
  mkElement (Tag "h1" [NavigableString "A"]) [] []
    [Tag "p" [NavigableString "x"];
     Tag "h3" [NavigableString "C"]; Tag "p" [NavigableString "y"];
     Tag "h2" [NavigableString "B"]].

(** [<h1>A</h1><h2>B</h2><p>x</p>] *)
Definition adjacent_headers : BeautifulSoup :=
  [Tag "h1" [NavigableString "A"]; Tag "h2" [NavigableString "B"];
   Tag "p" [NavigableString "x"]].

Definition adjacent_headers_h1 : Element :=
  mkElement (Tag "h1" [NavigableString "A"]) [] []
    [Tag "h2" [NavigableString "B"]; Tag "p" [NavigableString "x"]].

(** [<body><h1>A</h1>bare</body>] *)
Definition bare_after_header : BeautifulSoup :=
  [Tag "body" [Tag "h1" [NavigableString "A"]; NavigableString "bare"]].

Definition bare_after_header_h1 : Element :=
  mkElement (Tag "h1" [NavigableString "A"])
    [Tag "body" [Tag "h1" [NavigableString "A"]; NavigableString "bare"]]
    [Tag "body" [Tag "h1" [NavigableString "A"]; NavigableString "bare"]]
    [NavigableString "bare"].

(** [<body><h1>A</h1>bare<h2>B</h2></body>] *)
Definition bare_between : BeautifulSoup :=
[Tag "body"
   [Tag "h1" [NavigableString "A"]; NavigableString "bare";
    Tag "h2" [NavigableString "B"]]].

Definition bare_between_h1 : Element :=
mkElement (Tag "h1" [NavigableString "A"]) bare_between bare_between
  [NavigableString "bare"; Tag "h2" [NavigableString "B"]].

Definition bare_between_h2 : Element :=
mkElement (Tag "h2" [NavigableString "B"]) bare_between
  ([NavigableString "bare"; NavigableString "A";
    Tag "h1" [NavigableString "A"]] ++ bare_between)
  [].

(** [<h1>A</h1><div><h2>B</h2>bare<h3>C</h3></div>] *)
Definition nested_bare : BeautifulSoup :=
[Tag "h1" [NavigableString "A"];
 Tag "div"
   [Tag "h2" [NavigableString "B"]; NavigableString "bare";
    Tag "h3" [NavigableString "C"]]].

(** The [div] of that document. *)
Definition nested_bare_div : PageElement :=
Tag "div"
  [Tag "h2" [NavigableString "B"]; NavigableString "bare";
   Tag "h3" [NavigableString "C"]].

Definition nested_bare_h1 : Element :=
mkElement (Tag "h1" [NavigableString "A"]) [] [] [nested_bare_div].

Definition nested_bare_h2 : Element :=
mkElement (Tag "h2" [NavigableString "B"]) [nested_bare_div]
  [nested_bare_div; NavigableString "A"; Tag "h1" [NavigableString "A"]]
  [NavigableString "bare"; Tag "h3" [NavigableString "C"]].

Definition nested_bare_h3 : Element :=
mkElement (Tag "h3" [NavigableString "C"]) [nested_bare_div]
  [NavigableString "bare"; NavigableString "B";
   Tag "h2" [NavigableString "B"]; nested_bare_div; NavigableString "A";
   Tag "h1" [NavigableString "A"]]
  [].

(** [<p>x  y</p>], with two spaces between [x] and [y] *)
Definition double_space : BeautifulSoup :=
[Tag "p" [NavigableString "x  y"]].

(** A page without headers: a [head] with a title and a style sheet, and a
    [body] with two paragraphs, a comment and a script. *)
Definition plain_page : BeautifulSoup :=
[Tag "html"
   [Tag "head"
      [Tag "title" [NavigableString "T"];
       Tag "style" [ContainedString Stylesheet "p {}"]];
    NavigableString " ";
    Tag "body"
      [Tag "p" [NavigableString " x  y "]; NavigableString " ";
       Comment "note"; Tag "script" [ContainedString Script "js"];
       Tag "p" [NavigableString "z"]]]].

(** [<h1>A</h1>text<h2>B</h2>], for any [text] *)
Definition bare_top_level (text : string) : BeautifulSoup :=
[Tag "h1" [NavigableString "A"]; NavigableString text;
 Tag "h2" [NavigableString "B"]].

End Samples.

(** ** Documents with the same tags and the same visible text *)

(** Two runs of nodes that have the same tags, related in the same way
    inside, and strings with the same stripped content in between; strings
    that [get_text] skips (white space only, comments) may stand on either
    side alone. *)
Inductive same_texts : list PageElement → list PageElement → Prop :=
  | same_texts_nil : same_texts [] []
  | same_texts_tag n cs cs' l k :
      same_texts cs cs' → same_texts l k →
      same_texts (Tag n cs :: l) (Tag n cs' :: k)
  | same_texts_str a b l k :
      is_Tag a = false → is_Tag b = false →
      (∀ types, strings_of types a = strings_of types b) →
      same_texts l k → same_texts (a :: l) (b :: k)
  | same_texts_skip_l a l k :
      is_Tag a = false → (∀ types, strings_of types a = []) →
      same_texts l k → same_texts (a :: l) k
  | same_texts_skip_r b l k :
      is_Tag b = false → (∀ types, strings_of types b = []) →
      same_texts l k → same_texts l (b :: k).

(** Two tags with the same name and the same contents in this sense. *)
Definition same_tag (a b : PageElement) : Prop :=
  match a, b with
  | Tag n cs, Tag n' cs' => n = n' ∧ same_texts cs cs'
  | _, _ => False
  end.

(** The tags of a run of nodes. *)
Definition tags (l : list PageElement) : list PageElement :=
  filter (λ e, is_Tag e = true) l.

(** The elements that are tags. *)
Definition tag_elements (l : list Element) : list Element :=
  filter (λ el, is_Tag (node el) = true) l.

(** Two elements at corresponding places of two such documents. *)
Definition same_place (a b : Element) : Prop :=
  same_tag (node a) (node b)
  ∧ Forall2 same_tag (tags (previous_elements a)) (tags (previous_elements b))
  ∧ Forall2 same_tag (tags (next_siblings a)) (tags (next_siblings b)).

(** ** Further vocabulary and sample worlds *)

(** The invariant of a chunk: its text is stripped, it has at most one
    metadata entry, and it is not empty in both text and metadata. *)
Definition well_formed_chunk (d : Document) : Prop :=
  Str.strip (page_content d) = page_content d
  ∧ size (metadata d) ≤ 1
  ∧ (metadata d = ∅ → page_content d ≠ "").

Module Worlds.
Import Pipeline.

(** The record that the loop of [split_html] leaves for a dropped split. *)
Definition dropping_record (d : Document) : level * string :=
  (INFO, "Dropping split with empty metadata: " +:+ page_content d).

(** A world in which every call succeeds and nothing changes: the file
    holds [html], which parses to [soup]; the section looked for is
    [section]; the user answers [answer]. *)
Definition scripted (html : string) (soup : BeautifulSoup)
    (section : option string) (answer : string) : Env unit :=
  {| open_read := λ path (w : unit), (inr html, w);
     parse := λ text (w : unit), (inr soup, w);
     find_section := λ text tag cls (w : unit), (inr section, w);
     pickle_dump := λ splits path (w : unit), (inr tt, w);
     write_text := λ path text (w : unit), (inr tt, w);
     os_name := "posix";
     os_system := λ command (w : unit), (inr tt, w);
     print := λ text (w : unit), (inr tt, w);
     print_metadata := λ m (w : unit), (inr tt, w);
     input := λ prompt (w : unit), (inr answer, w);
     str_metadata := λ m, "" |}.

(** A computation that does not read the records of the logger: run with
    the records [l] it does what it does without records, and adds its own
    records to [l]. *)
Definition log_free {World A : Type} (m : M (World := World) A) : Prop :=
  ∀ w l,
    m (mkState w l)
    = ((m (mkState w [])).1,
       mkState (world (m (mkState w [])).2)
         (l ++ logged (m (mkState w [])).2)).

End Worlds.

(** ** A world that records what is written *)

Module Recording.
Import Pipeline.

(** The files written so far: the pickled lists and the texts, each with
    its path, in the order of writing. *)
Record files : Type := mkFiles {
  pickled : list (string * list Document);
  written : list (string * string)
}.

(** A world in which the input file holds [html], which parses to [soup],
    every call succeeds, and the two kinds of output are recorded;
    [str_of] stands for [str] on metadata. *)
Definition recording (html : string) (soup : BeautifulSoup)
    (str_of : gmap string string → string) : Env files :=
  {| open_read := λ path (w : files), (inr html, w);
     parse := λ text (w : files), (inr soup, w);
     find_section := λ text tag cls (w : files), (inr None, w);
     pickle_dump := λ splits path (w : files),
       (inr tt, mkFiles (pickled w ++ [(path, splits)]) (written w));
     write_text := λ path text (w : files),
       (inr tt, mkFiles (pickled w) (written w ++ [(path, text)]));
     os_name := "posix";
     os_system := λ command (w : files), (inr tt, w);
     print := λ text (w : files), (inr tt, w);
     print_metadata := λ m (w : files), (inr tt, w);
     input := λ prompt (w : files), (inr "", w);
     str_metadata := str_of |}.

(** What [split_html] keeps of the output of the splitter when it does not
    ask. *)
Definition kept (drop_empty_metadata : bool) (out : list Document)
    : list Document :=
  if drop_empty_metadata then filter (λ d, metadata d ≠ ∅) out else out.

End Recording.

(** ** More sample documents *)

Module Pages.

(** [<h1>A</h1>], a line break, [<p> hello <!--note--></p>] *)
Definition spaced_page : BeautifulSoup :=
  [Tag "h1" [NavigableString "A"];
   NavigableString (" " +:+ Pipeline.nl);
   Tag "p" [NavigableString " hello "; Comment "note"]].

(** [<h1>A</h1><p>hello</p>] *)
Definition dense_page : BeautifulSoup :=
  [Tag "h1" [NavigableString "A"]; Tag "p" [NavigableString "hello"]].

End Pages.

(** * Properties *)

(** ** Strings *)

Module StrFacts.
Import Str.

Lemma append_nil_r (s : string) : s +:+ "" = s.
Proof. induction s as [|c s IH]; simpl; [done | by rewrite IH]. Qed.

Lemma append_assoc (s t u : string) : (s +:+ t) +:+ u = s +:+ (t +:+ u).
Proof. induction s as [|c s IH]; simpl; [done | by rewrite IH]. Qed.

Lemma truthy_append_l (s t : string) :
  truthy s = true → truthy (s +:+ t) = true.
Proof. by destruct s. Qed.

Lemma truthy_append_r (s t : string) :
  truthy t = true → truthy (s +:+ t) = true.
Proof. by destruct s. Qed.

Lemma not_truthy (s : string) : truthy s = false → s = "".
Proof. by destruct s. Qed.

Lemma lstrip_fixed (s : string) :
  lstrip s = s ↔
  match s with EmptyString => True | String c _ => isspace c = false end.
Proof.
  destruct s as [|c s]; simpl; [done|].
  destruct (isspace c) eqn:Hc; [|done].
  split; [|done]. intros Heq.
  assert (Hlen : ∀ t, String.length (lstrip t) ≤ String.length t).
  { induction t as [|d t IH]; simpl; [lia|]. destruct (isspace d); simpl; lia. }
  specialize (Hlen s). rewrite Heq in Hlen. simpl in Hlen. lia.
Qed.

Lemma lstrip_idemp (s : string) : lstrip (lstrip s) = lstrip s.
Proof.
  induction s as [|c s IH]; simpl; [done|].
  destruct (isspace c) eqn:Hc; [done|]. simpl. by rewrite Hc.
Qed.

Lemma rstrip_append (s t : string) :
  rstrip (s +:+ t) = if truthy (rstrip t) then s +:+ rstrip t else rstrip s.
Proof.
  induction s as [|c s IH]; simpl.
  - by destruct (rstrip t).
  - rewrite IH. destruct (truthy (rstrip t)) eqn:Ht; [|done].
    rewrite truthy_append_r by done. by rewrite andb_false_r.
Qed.

Lemma rstrip_idemp (s : string) : rstrip (rstrip s) = rstrip s.
Proof.
  induction s as [|c s IH]; simpl; [done|].
  destruct (isspace c && negb (truthy (rstrip s))) eqn:Hc; [done|].
  simpl. by rewrite IH, Hc.
Qed.

Lemma lstrip_rstrip (s : string) :
  lstrip s = s → lstrip (rstrip s) = rstrip s.
Proof.
  intros Hs. apply lstrip_fixed in Hs. apply lstrip_fixed.
  destruct s as [|c s]; simpl; [done|].
  by destruct (isspace c && negb (truthy (rstrip s))).
Qed.

Lemma strip_clean (s : string) : clean (strip s).
Proof.
  split; unfold strip.
  - apply lstrip_rstrip, lstrip_idemp.
  - apply rstrip_idemp.
Qed.

Lemma clean_strip (s : string) : clean s → strip s = s.
Proof. intros [Hl Hr]. unfold strip. by rewrite Hl. Qed.

Lemma clean_empty : clean "".
Proof. done. Qed.

Lemma clean_sep (a b : string) :
  clean a → truthy a = true → clean b → truthy b = true →
  clean (a +:+ " " +:+ b).
Proof.
  intros [Hal Har] Ha [Hbl Hbr] Hb. split.
  - apply lstrip_fixed. apply lstrip_fixed in Hal.
    by destruct a.
  - by rewrite !rstrip_append, Hbr, Hb.
Qed.

Lemma join_solid (l : list string) :
  Forall solid l → l ≠ [] → solid (join " " l).
Proof.
  induction 1 as [|s l [Hs Hs'] Hl IH]; [done|]. intros _.
  destruct l as [|t l]; [done|].
  destruct IH as [IH IH']; [done|].
  change (join " " (s :: t :: l)) with (s +:+ " " +:+ join " " (t :: l)).
  split; [by apply clean_sep | by apply truthy_append_l].
Qed.

Lemma join_clean (l : list string) : Forall solid l → clean (join " " l).
Proof.
  intros Hl. destruct l as [|s l]; [apply clean_empty|].
  by apply join_solid.
Qed.

Lemma join_truthy (l : list string) :
  Forall solid l → truthy (join " " l) = bool_decide (l ≠ []).
Proof.
  intros Hl. destruct l as [|s l]; [done|].
  by apply join_solid.
Qed.

Lemma spaced_join (l : list string) :
  l ≠ [] → spaced l = join " " l +:+ " ".
Proof.
  induction l as [|s l IH]; [done|]. intros _. simpl.
  destruct l as [|t l]; [apply append_nil_r|].
  rewrite IH by done. by rewrite !append_assoc.
Qed.

Lemma strip_spaced (l : list string) :
  Forall solid l → strip (spaced l) = join " " l.
Proof.
  intros Hl. destruct l as [|s l]; [done|].
  rewrite spaced_join by done.
  destruct (join_solid (s :: l)) as [[Hjl Hjr] Hj]; [done..|].
  unfold strip.
  assert (lstrip (join " " (s :: l) +:+ " ") = join " " (s :: l) +:+ " ")
    as ->.
  { apply lstrip_fixed. apply lstrip_fixed in Hjl.
    by destruct (join " " (s :: l)). }
  by rewrite rstrip_append.
Qed.

Lemma spaced_snoc (l : list string) (t : string) :
  spaced (l ++ [t]) = spaced l +:+ (t +:+ " ").
Proof.
  induction l as [|s l IH]; simpl.
  - by rewrite append_nil_r.
  - by rewrite IH, !append_assoc.
Qed.

End StrFacts.

(** ** The tree *)

Lemma PageElement_nested_ind (P : PageElement → Prop) :
  (∀ n cs, Forall P cs → P (Tag n cs)) →
  (∀ s, P (NavigableString s)) →
  (∀ s, P (Comment s)) →
  (∀ k s, P (ContainedString k s)) →
  ∀ e, P e.
Proof.
  intros HT HN HC HK. fix IH 1. intros [n cs|s|s|k s]; [|done..].
  apply HT. induction cs as [|c cs IHcs]; constructor; auto.
Qed.

Section TreeFacts.
Import StrFacts.

Lemma stripped_solid (s : string) : Forall solid (stripped s).
Proof.
  unfold stripped. destruct (Str.truthy (Str.strip s)) eqn:Hs; [|done].
  repeat constructor; [apply strip_clean..|done].
Qed.

Lemma strings_of_solid (types : option string_class) (e : PageElement) :
  Forall solid (strings_of types e).
Proof.
  induction e as [n cs IH|s|s|k s] using PageElement_nested_ind; simpl.
  - induction IH as [|c cs Hc _ IHcs]; simpl; [done|].
    by apply Forall_app.
  - destruct types; [done | apply stripped_solid].
  - done.
  - destruct types as [k'|]; [|done].
    case_decide; [apply stripped_solid | done].
Qed.

Lemma all_strings_solid (e : PageElement) : Forall solid (all_strings e).
Proof. apply strings_of_solid. Qed.

Lemma get_text_clean (e : PageElement) : clean (get_text e).
Proof. apply join_clean, all_strings_solid. Qed.

Lemma strip_get_text (e : PageElement) : Str.strip (get_text e) = get_text e.
Proof. apply clean_strip, get_text_clean. Qed.

Lemma tag_texts_solid (l : list PageElement) : Forall solid (tag_texts l).
Proof.
  unfold tag_texts. apply Forall_forall. intros t Ht.
  apply list_elem_of_filter in Ht as [Ht Hin].
  apply list_elem_of_fmap in Hin as (e & -> & _).
  split; [apply get_text_clean | done].
Qed.

Lemma tag_texts_app (l1 l2 : list PageElement) :
  tag_texts (l1 ++ l2) = tag_texts l1 ++ tag_texts l2.
Proof. unfold tag_texts. by rewrite filter_app, map_app, filter_app. Qed.

Lemma tag_texts_tags (l : list PageElement) :
  tag_texts (filter (λ e, is_Tag e = true) l) = tag_texts l.
Proof.
  unfold tag_texts. do 2 f_equal.
  induction l as [|e l IH]; [done|].
  rewrite !filter_cons. destruct (decide (is_Tag e = true)) as [He|He].
  - rewrite filter_cons, decide_True by done. by rewrite IH.
  - done.
Qed.

Lemma spaced_app (l1 l2 : list string) :
  spaced (l1 ++ l2) = spaced l1 +:+ spaced l2.
Proof.
  induction l1 as [|t l1 IH]; simpl; [done|].
  by rewrite IH, !append_assoc.
Qed.

End TreeFacts.

(** ** Elements and their links *)

Section LinkFacts.

(** Positions: the elements of a subtree are numbered consecutively. *)
Lemma locate_children_positions (ps cs prev : list PageElement) :
  Forall (λ c, ∀ ps prev sibs,
            map position (locate ps c prev sibs)
            = seq (length prev) (length (preorder c))) cs →
  map position (locate_children (locate ps) cs prev)
  = seq (length prev) (length (concat (map preorder cs))).
Proof.
  intros Hcs. revert prev.
  induction Hcs as [|c cs Hc _ IH]; intros prev; simpl; [done|].
  rewrite map_app, Hc, IH, !length_app, length_reverse, seq_app.
  do 2 f_equal. lia.
Qed.

Lemma locate_positions (e : PageElement) (ps prev sibs : list PageElement) :
  map position (locate ps e prev sibs)
  = seq (length prev) (length (preorder e)).
Proof.
  revert ps prev sibs.
  induction e as [n cs IH|s|s|k s] using PageElement_nested_ind;
    intros ps prev sibs; simpl; [|done..].
  f_equal. by rewrite locate_children_positions.
Qed.

Lemma positions_sorted (l : list Element) (a n : nat) :
  map position l = seq a n → StronglySorted precedes l.
Proof.
  revert a n. induction l as [|x l IH]; intros a n Hl; [constructor|].
  destruct n as [|n]; [done|]. simpl in Hl. injection Hl as Hx Hl.
  constructor; [by eapply IH|].
  apply Forall_forall. intros y Hy. unfold precedes. rewrite Hx.
  assert (Hpy : position y ∈ map position l)
    by (apply list_elem_of_fmap; eauto).
  rewrite Hl in Hpy. apply list_elem_of_In, in_seq in Hpy. lia.
Qed.

Lemma filter_sorted {A} (R : relation A) (P : A → Prop)
    `{!∀ x, Decision (P x)} (l : list A) :
  StronglySorted R l → StronglySorted R (filter P l).
Proof.
  induction 1 as [|x l _ IH Hx]; [constructor|].
  rewrite filter_cons. case_decide; [|done].
  constructor; [done|].
  apply Forall_forall. intros y Hy. apply list_elem_of_filter in Hy as [_ Hy].
  by eapply Forall_forall in Hx.
Qed.

Lemma soup_descendants_sorted (soup : BeautifulSoup) :
  StronglySorted precedes (soup_descendants soup).
Proof.
  eapply positions_sorted, locate_children_positions.
  apply Forall_forall. intros c _ ps prev sibs. apply locate_positions.
Qed.

Lemma descendants_sorted (el : Element) :
  StronglySorted precedes (descendants el).
Proof.
  unfold descendants. destruct (node el) as [n cs|s|s|k s]; [|constructor..].
  eapply positions_sorted, locate_children_positions.
  apply Forall_forall. intros c _ ps prev sibs. apply locate_positions.
Qed.

(** Parents: every enclosing tag is among the previous elements. *)
Lemma linked_mono (ps prev prev' : list PageElement) :
  linked ps prev → prev ⊆ prev' → linked ps prev'.
Proof.
  intros Hps Hsub. eapply Forall_impl; [done|].
  intros p [Hp Hin]. split; [done | by apply Hsub].
Qed.

Lemma locate_children_linked (cs : list PageElement) :
  Forall (λ c, ∀ ps prev sibs,
            linked ps prev → Forall well_linked (locate ps c prev sibs)) cs →
  ∀ ps prev, linked ps prev →
    Forall well_linked (locate_children (locate ps) cs prev).
Proof.
  induction 1 as [|c cs Hc _ IH]; intros ps prev Hps; simpl; [done|].
  apply Forall_app. split; [by apply Hc|].
  apply IH. eapply linked_mono; [done|].
  intros x Hx. apply elem_of_app. by right.
Qed.

Lemma locate_linked (e : PageElement) (ps prev sibs : list PageElement) :
  linked ps prev → Forall well_linked (locate ps e prev sibs).
Proof.
  revert ps prev sibs.
  induction e as [n cs IH|s|s|k s] using PageElement_nested_ind;
    intros ps prev sibs Hps; simpl; [|by repeat constructor..].
  constructor; [done|].
  apply locate_children_linked; [done|].
  constructor; [split; [done | by left]|].
  eapply linked_mono; [done|]. intros x Hx. by right.
Qed.

Lemma soup_descendants_linked (soup : BeautifulSoup) :
  Forall well_linked (soup_descendants soup).
Proof.
  apply locate_children_linked; [|constructor].
  apply Forall_forall. intros c _ ps prev sibs. apply locate_linked.
Qed.

Lemma descendants_linked (el : Element) :
  well_linked el → Forall well_linked (descendants el).
Proof.
  intros Hel. unfold descendants.
  destruct (node el) as [n cs|s|s|k s] eqn:Hn; [|constructor..].
  apply locate_children_linked.
  - apply Forall_forall. intros c _ ps prev sibs. apply locate_linked.
  - constructor; [split; [done | by left]|].
    eapply linked_mono; [done|]. intros x Hx. by right.
Qed.

(** Parents: every enclosing tag contains the element. *)
Lemma preorder_self (e : PageElement) : e ∈ preorder e.
Proof. destruct e; by left. Qed.

Lemma preorder_child (n : string) (cs : list PageElement) (c x : PageElement) :
  c ∈ cs → x ∈ preorder c → x ∈ preorder (Tag n cs).
Proof.
  intros Hc Hx. simpl. right.
  apply list_elem_of_In, in_concat. exists (preorder c).
  split; [|by apply list_elem_of_In].
  apply in_map, list_elem_of_In, Hc.
Qed.

Lemma preorder_trans (x e p : PageElement) :
  x ∈ preorder e → e ∈ preorder p → x ∈ preorder p.
Proof.
  intros Hx. induction p as [n cs IH|s|s|k s] using PageElement_nested_ind;
    simpl; intros He.
  - apply elem_of_cons in He as [->|He]; [done|].
    apply list_elem_of_In, in_concat in He as (l & Hl & He).
    apply in_map_iff in Hl as (c & <- & Hc).
    apply list_elem_of_In in Hc, He.
    eapply preorder_child; [done|].
    rewrite Forall_forall in IH. by apply IH.
  - by apply list_elem_of_singleton in He as ->.
  - by apply list_elem_of_singleton in He as ->.
  - by apply list_elem_of_singleton in He as ->.
Qed.

Lemma locate_children_enclosed (cs : list PageElement) :
  Forall (λ c, ∀ ps prev sibs,
            inside c ps → Forall enclosed (locate ps c prev sibs)) cs →
  ∀ ps prev, Forall (λ c, inside c ps) cs →
    Forall enclosed (locate_children (locate ps) cs prev).
Proof.
  induction 1 as [|c cs Hc _ IH]; intros ps prev Hps; simpl; [done|].
  apply Forall_cons in Hps as [Hcps Hps].
  apply Forall_app. split; [by apply Hc | by apply IH].
Qed.

Lemma locate_enclosed (e : PageElement) (ps prev sibs : list PageElement) :
  inside e ps → Forall enclosed (locate ps e prev sibs).
Proof.
  revert ps prev sibs.
  induction e as [n cs IH|s|s|k s] using PageElement_nested_ind;
    intros ps prev sibs Hps; simpl; [|by repeat constructor..].
  constructor; [done|].
  apply locate_children_enclosed; [done|].
  apply Forall_forall. intros c Hc. constructor.
  - eapply preorder_child; [done | apply preorder_self].
  - eapply Forall_impl; [done|]. intros p Hp. simpl in Hp.
    eapply preorder_trans; [|done].
    eapply preorder_child; [done | apply preorder_self].
Qed.

Lemma soup_descendants_enclosed (soup : BeautifulSoup) :
  Forall enclosed (soup_descendants soup).
Proof.
  apply locate_children_enclosed.
  - apply Forall_forall. intros c _ ps prev sibs. apply locate_enclosed.
  - apply Forall_forall. intros c _. constructor.
Qed.

Lemma descendants_enclosed (el : Element) :
  enclosed el → Forall enclosed (descendants el).
Proof.
  intros Hel. unfold descendants.
  destruct (node el) as [n cs|s|s|k s] eqn:Hn; [|constructor..].
  apply locate_children_enclosed.
  - apply Forall_forall. intros c _ ps prev sibs. apply locate_enclosed.
  - apply Forall_forall. intros c Hc. constructor.
    + eapply preorder_child; [done | apply preorder_self].
    + eapply Forall_impl; [done|]. intros p Hp. simpl in Hp.
      eapply preorder_trans; [|done]. rewrite Hn.
      eapply preorder_child; [done | apply preorder_self].
Qed.

End LinkFacts.

(** ** The loops of the splitter *)

Section SegmenterFacts.
Import StrFacts.
Variable spec : list (string * string).

Abbreviation names := (headers_to_split_on spec).

Lemma dict_lookup_acc (pairs : list (string * string))
    (m : gmap string string) (k : string) :
  k ∈ map fst pairs ∨ is_Some (m !! k) →
  is_Some (fold_left (λ m kv, <[kv.1 := kv.2]> m) pairs m !! k).
Proof.
  revert m. induction pairs as [|[k' v'] pairs IH]; intros m; simpl.
  - intros [Hk|Hk]; [by apply elem_of_nil in Hk | done].
  - intros [Hk|Hk]; apply IH.
    + apply elem_of_cons in Hk as [->|Hk]; [right | by left].
      rewrite lookup_insert_eq. by eexists.
    + right. destruct (decide (k' = k)) as [->|Hne].
      * rewrite lookup_insert_eq. by eexists.
      * by rewrite lookup_insert_ne.
Qed.

Lemma header_mapping_lookup (k : string) :
  k ∈ names → is_Some (header_mapping spec !! k).
Proof. intros Hk. apply dict_lookup_acc. by left. Qed.

Lemma name_in_spec (sel : list string) (e : PageElement) :
  name_in sel e = true ↔ ∃ n cs, e = Tag n cs ∧ n ∈ sel.
Proof.
  unfold name_in. destruct e as [n cs|s|s|k s]; simpl.
  - rewrite bool_decide_eq_true. split; [eauto|].
    by intros (? & ? & [= <- <-] & ?).
  - split; [done|]. by intros (? & ? & ? & ?).
  - split; [done|]. by intros (? & ? & ? & ?).
  - split; [done|]. by intros (? & ? & ? & ?).
Qed.

Lemma name_in_is_Tag (sel : list string) (e : PageElement) :
  name_in sel e = true → is_Tag e = true.
Proof. rewrite name_in_spec. by intros (? & ? & -> & _). Qed.

Lemma find_all_spec (sel : list string) (scope : list Element)
    (el : Element) :
  el ∈ find_all sel scope ↔
  el ∈ scope ∧ ∃ n cs, node el = Tag n cs ∧ n ∈ sel.
Proof.
  unfold find_all. rewrite list_elem_of_filter, name_in_spec. tauto.
Qed.

(** The backward walk. *)
Lemma pre_header_loop (l : list PageElement) (acc : string) :
  fold_left
    (λ pre_header_content elem,
       if is_Tag elem then
         let text := get_text elem in
         if Str.truthy text then (text +:+ " ") +:+ pre_header_content
         else pre_header_content
       else pre_header_content) l acc
  = spaced (tag_texts (reverse l)) +:+ acc.
Proof.
  revert acc. induction l as [|e l IH]; intros acc; simpl; [done|].
  rewrite IH, reverse_cons, tag_texts_app, spaced_app.
  rewrite (append_assoc (spaced _) (spaced _) acc).
  f_equal. unfold tag_texts. rewrite filter_cons, filter_nil.
  destruct (is_Tag e) eqn:He; case_decide; try (exfalso; congruence); [|done].
  simpl. rewrite filter_cons, filter_nil.
  destruct (Str.truthy (get_text e)) eqn:Ht; case_decide; try (exfalso; congruence).
  - simpl. by rewrite (append_nil_r (_ +:+ " ")).
  - done.
Qed.

Lemma pre_header_content_spaced (first_header : Element) :
  pre_header_content first_header
  = spaced (pre_header_texts first_header).
Proof.
  unfold pre_header_content, pre_header_texts, find_all_previous.
  rewrite pre_header_loop, append_nil_r.
  by rewrite <- filter_reverse, tag_texts_tags.
Qed.

Lemma strip_pre_header_content (first_header : Element) :
  Str.strip (pre_header_content first_header)
  = Str.join " " (pre_header_texts first_header).
Proof.
  rewrite pre_header_content_spaced. apply strip_spaced, tag_texts_solid.
Qed.

(** The scan of the siblings. *)
Lemma collect_content_spec (siblings acc : list PageElement) :
  collect_content spec siblings acc
  = acc ++ filter (λ e, is_Tag e = true) (before_header names siblings).
Proof.
  revert acc. induction siblings as [|e l IH]; intros acc; simpl.
  - by rewrite app_nil_r.
  - destruct (name_in names e) eqn:Hn; [by rewrite filter_nil, app_nil_r|].
    rewrite filter_cons.
    destruct (is_Tag e) eqn:He; case_decide; try (exfalso; congruence).
    + by rewrite IH, <- app_assoc.
    + apply IH.
Qed.

Lemma before_header_tags (siblings : list PageElement) :
  before_header names (filter (λ e, is_Tag e = true) siblings)
  = filter (λ e, is_Tag e = true) (before_header names siblings).
Proof.
  induction siblings as [|e l IH]; simpl; [done|].
  rewrite filter_cons. destruct (name_in names e) eqn:Hn.
  - rewrite decide_True by by eapply name_in_is_Tag.
    simpl. by rewrite Hn.
  - rewrite filter_cons. destruct (decide (is_Tag e = true)); [|done].
    simpl. by rewrite Hn, IH.
Qed.

Lemma content_elements_spec (header : Element) :
  collect_content spec (find_next_siblings header) []
  = filter (λ e, is_Tag e = true)
      (before_header names (next_siblings header)).
Proof.
  unfold find_next_siblings.
  rewrite collect_content_spec, before_header_tags. simpl.
  rewrite list_filter_filter. apply list_filter_iff. tauto.
Qed.

Lemma join_content_loop (l : list PageElement) (acc : string) :
  fold_left
    (λ current_content elem,
       let text := get_text elem in
       if Str.truthy text then current_content +:+ (text +:+ " ")
       else current_content) l acc
  = acc +:+ spaced (filter (λ t, Str.truthy t = true) (map get_text l)).
Proof.
  revert acc. induction l as [|e l IH]; intros acc; simpl.
  - by rewrite append_nil_r.
  - rewrite IH, filter_cons.
    destruct (Str.truthy (get_text e)) eqn:Ht; case_decide; try (exfalso; congruence).
    + simpl. by rewrite !append_assoc.
    + done.
Qed.

Lemma current_content_spaced (header : Element) :
  current_content spec header
  = spaced (tag_texts (before_header names (next_siblings header))).
Proof.
  unfold current_content, join_content.
  by rewrite join_content_loop, content_elements_spec.
Qed.

Lemma strip_current_content (header : Element) :
  Str.strip (current_content spec header) = chunk_text spec header.
Proof.
  rewrite current_content_spaced. apply strip_spaced, tag_texts_solid.
Qed.

(** One header. *)
Lemma header_document_chunk (header : Element) (n : string) :
  name_of (node header) = Some n → n ∈ names →
  ∃ d, header_document spec header = Some d ∧ chunk_of spec header d.
Proof.
  intros Hn Hin. destruct (header_mapping_lookup n Hin) as [label Hl].
  unfold header_document. rewrite Hn. simpl. rewrite Hl. simpl.
  rewrite strip_current_content.
  destruct (Str.truthy (chunk_text spec header)) eqn:Ht.
  - eexists. split; [done|]. by exists n, label.
  - eexists. split; [done|]. exists n, label.
    repeat split; [done..|]. simpl. symmetry. by apply not_truthy.
Qed.

Lemma chunk_of_metadata (header : Element) (d : Document) :
  chunk_of spec header d → size (metadata d) = 1 ∧ metadata d ≠ ∅.
Proof.
  intros (n & label & _ & _ & -> & _). split.
  - apply map_size_singleton.
  - apply insert_non_empty.
Qed.

Lemma find_all_headers (scope : list Element) :
  Forall (is_header spec) (find_all names scope).
Proof.
  apply Forall_forall. intros el Hel.
  apply find_all_spec in Hel as (_ & n & cs & Hn & Hin).
  exists n. by rewrite Hn.
Qed.

(** The loop over the headers. *)
Lemma process_headers_spec (headers : list Element)
    (documents : list Document) :
  Forall (is_header spec) headers →
  ∃ per, process_headers spec headers documents = Some (documents ++ per)
         ∧ Forall2 (chunk_of spec) headers per.
Proof.
  intros Hhs. revert documents.
  induction Hhs as [|h hs (n & Hn & Hin) _ IH]; intros documents; simpl.
  - exists []. by rewrite app_nil_r.
  - destruct (header_document_chunk h n Hn Hin) as (d & -> & Hd). simpl.
    destruct (IH (documents ++ [d])) as (per & -> & Hper).
    exists (d :: per). split; [by rewrite <- app_assoc | by constructor].
Qed.

(** The two branches of [split_text_from_file]. *)
Lemma split_with_headers (soup : BeautifulSoup) (first_header : Element)
    (others : list Element) :
  all_headers spec soup = first_header :: others →
  ∃ per,
    split_text_from_file spec soup
    = Some (pre_header_chunk first_header ++ per)
    ∧ Forall2 (chunk_of spec) (all_headers spec soup) per.
Proof.
  intros Hall. unfold split_text_from_file. rewrite Hall.
  rewrite strip_pre_header_content.
  rewrite join_truthy by apply tag_texts_solid.
  assert (Hhs : Forall (is_header spec) (first_header :: others)).
  { rewrite <- Hall. apply find_all_headers. }
  unfold pre_header_chunk.
  destruct (pre_header_texts first_header) as [|t ts] eqn:Hts.
  - rewrite bool_decide_eq_false_2 by (by intros []).
    by apply process_headers_spec.
  - rewrite bool_decide_eq_true_2 by done.
    by apply process_headers_spec.
Qed.

Lemma split_without_headers (soup : BeautifulSoup) :
  all_headers spec soup = [] →
  split_text_from_file spec soup
  = Some (if Str.truthy (get_text (body_node soup))
          then [mkDocument (get_text (body_node soup)) ∅] else []).
Proof.
  intros Hall. unfold split_text_from_file. rewrite Hall.
  rewrite strip_get_text. by destruct (Str.truthy _).
Qed.



(** Where the headers are looked for. *)
Lemma body_descendants_sorted (soup : BeautifulSoup) :
  StronglySorted precedes (body_descendants soup).
Proof.
  unfold body_descendants. destruct (soup_body soup).
  - apply descendants_sorted.
  - apply soup_descendants_sorted.
Qed.

Lemma body_descendants_linked (soup : BeautifulSoup) :
  Forall well_linked (body_descendants soup).
Proof.
  unfold body_descendants. destruct (soup_body soup) as [body|] eqn:Hb.
  - apply descendants_linked. unfold soup_body in Hb.
    apply head_Some_elem_of, list_elem_of_filter in Hb as [_ Hb].
    by eapply Forall_forall in Hb; [|apply soup_descendants_linked].
  - apply soup_descendants_linked.
Qed.

Lemma body_descendants_enclosed (soup : BeautifulSoup) :
  Forall enclosed (body_descendants soup).
Proof.
  unfold body_descendants. destruct (soup_body soup) as [body|] eqn:Hb.
  - apply descendants_enclosed. unfold soup_body in Hb.
    apply head_Some_elem_of, list_elem_of_filter in Hb as [_ Hb].
    by eapply Forall_forall in Hb; [|apply soup_descendants_enclosed].
  - apply soup_descendants_enclosed.
Qed.

Lemma all_headers_enclosed (soup : BeautifulSoup) :
  Forall enclosed (all_headers spec soup).
Proof.
  apply Forall_forall. intros el Hel.
  apply list_elem_of_filter in Hel as [_ Hel].
  by eapply Forall_forall in Hel; [|apply body_descendants_enclosed].
Qed.

Lemma all_headers_sorted (soup : BeautifulSoup) :
  StronglySorted precedes (all_headers spec soup).
Proof. apply filter_sorted, body_descendants_sorted. Qed.

Lemma all_headers_linked (soup : BeautifulSoup) :
  Forall well_linked (all_headers spec soup).
Proof.
  apply Forall_forall. intros el Hel.
  apply list_elem_of_filter in Hel as [_ Hel].
  by eapply Forall_forall in Hel; [|apply body_descendants_linked].
Qed.

Lemma Forall2_chunk_nonempty (headers : list Element)
    (per : list Document) :
  Forall2 (chunk_of spec) headers per →
  Forall (λ d, metadata d ≠ ∅) per.
Proof.
  induction 1 as [|h d hs per Hd _ IH]; constructor; [|done].
  by apply chunk_of_metadata in Hd as [_ Hd].
Qed.

Lemma pre_header_chunk_empty_metadata (first_header : Element) :
  length (pre_header_chunk first_header) ≤ 1
  ∧ Forall (λ d, metadata d = ∅) (pre_header_chunk first_header).
Proof.
  unfold pre_header_chunk.
  destruct (pre_header_texts first_header); simpl; split;
    repeat constructor; lia.
Qed.

End SegmenterFacts.

(** ** Strings at the top level of the document *)

Section TopLevelStrings.
Variable spec : list (string * string).

Lemma same_tags_app (l1 l2 k1 k2 : list PageElement) :
  same_tags l1 k1 → same_tags l2 k2 → same_tags (l1 ++ l2) (k1 ++ k2).
Proof. unfold same_tags. intros H1 H2. by rewrite !filter_app, H1, H2. Qed.

Lemma same_tags_cons (e : PageElement) (l k : list PageElement) :
  same_tags l k → same_tags (e :: l) (e :: k).
Proof. intros H. by apply (same_tags_app [e] l [e] k). Qed.

Lemma alike_same_tags (l k : list PageElement) :
  Forall2 alike l k → same_tags l k.
Proof.
  unfold same_tags.
  induction 1 as [|a b l k [->|[Ha Hb]] _ IH]; [done|..].
  - by rewrite !filter_cons, IH.
  - rewrite !filter_cons, IH.
    by rewrite !decide_False by congruence.
Qed.

Lemma alike_preorder (a b : PageElement) (l k : list PageElement) :
  alike a b → same_tags l k →
  same_tags (reverse (preorder a) ++ l) (reverse (preorder b) ++ k).
Proof.
  intros [->|[Ha Hb]] Hlk; [by apply same_tags_app|].
  destruct a, b; try done; unfold same_tags; simpl;
    by rewrite !filter_cons, !decide_False by (simpl; congruence).
Qed.

Lemma locate_children_similar (cs : list PageElement) :
  Forall (λ c, ∀ ps1 ps2 prev1 prev2 sibs1 sibs2,
            same_tags prev1 prev2 → same_tags sibs1 sibs2 →
            Forall2 similar (locate ps1 c prev1 sibs1)
              (locate ps2 c prev2 sibs2)) cs →
  ∀ ps1 ps2 prev1 prev2, same_tags prev1 prev2 →
    Forall2 similar (locate_children (locate ps1) cs prev1)
      (locate_children (locate ps2) cs prev2).
Proof.
  induction 1 as [|c cs Hc _ IH]; intros ps1 ps2 prev1 prev2 Hprev; simpl;
    [constructor|].
  apply Forall2_app; [by apply Hc|].
  apply IH. by apply same_tags_app.
Qed.

Lemma locate_similar (e : PageElement)
    (ps1 ps2 prev1 prev2 sibs1 sibs2 : list PageElement) :
  same_tags prev1 prev2 → same_tags sibs1 sibs2 →
  Forall2 similar (locate ps1 e prev1 sibs1) (locate ps2 e prev2 sibs2).
Proof.
  revert ps1 ps2 prev1 prev2 sibs1 sibs2.
  induction e as [n cs IH|s|s|k s] using PageElement_nested_ind;
    intros ps1 ps2 prev1 prev2 sibs1 sibs2 Hprev Hsibs; simpl.
  - constructor; [by repeat split; [left|..]|].
    apply locate_children_similar; [done|]. by apply same_tags_cons.
  - repeat constructor; done.
  - repeat constructor; done.
  - repeat constructor; done.
Qed.

Lemma locate_top_level_similar (soup1 soup2 : BeautifulSoup) :
  Forall2 alike soup1 soup2 →
  ∀ ps1 ps2 prev1 prev2, same_tags prev1 prev2 →
    Forall2 similar (locate_children (locate ps1) soup1 prev1)
      (locate_children (locate ps2) soup2 prev2).
Proof.
  induction 1 as [|a b l k Hab Hlk IH]; intros ps1 ps2 prev1 prev2 Hprev;
    simpl; [constructor|].
  apply Forall2_app; [|by apply IH, alike_preorder].
  pose proof (alike_same_tags _ _ Hlk) as Hsibs.
  destruct Hab as [->|[Ha Hb]]; [by apply locate_similar|].
  destruct a, b; try done; simpl; repeat constructor; try done;
    by right.
Qed.

Lemma alike_name_in (sel : list string) (a b : PageElement) :
  alike a b → name_in sel a = name_in sel b.
Proof.
  intros [->|[Ha Hb]]; [done|]. by destruct a, b.
Qed.

Lemma find_all_similar (sel : list string) (l k : list Element) :
  Forall2 similar l k → Forall2 twin (find_all sel l) (find_all sel k).
Proof.
  unfold find_all. induction 1 as [|a b l k (Hn & Hp & Hs) _ IH]; [done|].
  rewrite !filter_cons, <- (alike_name_in sel _ _ Hn).
  case_decide as Ha; [|done].
  constructor; [|done]. split; [|done].
  destruct Hn as [Hn|[Hn _]]; [done|].
  apply name_in_is_Tag in Ha. congruence.
Qed.

Lemma descendants_twin (a b : Element) :
  twin a b → Forall2 similar (descendants a) (descendants b).
Proof.
  intros (Hn & Hp & _). unfold descendants. rewrite <- Hn.
  destruct (node a) as [n cs|s|s|k s]; [|constructor..].
  apply locate_children_similar; [|by apply same_tags_cons].
  apply Forall_forall. intros c _ ps1 ps2 prev1 prev2 sibs1 sibs2.
  apply locate_similar.
Qed.

Lemma all_headers_twin (soup1 soup2 : BeautifulSoup) :
  Forall2 alike soup1 soup2 →
  Forall2 twin (all_headers spec soup1) (all_headers spec soup2).
Proof.
  intros Hsoup.
  assert (Hall : Forall2 similar (soup_descendants soup1)
                   (soup_descendants soup2))
    by by apply locate_top_level_similar.
  apply find_all_similar. unfold body_descendants, soup_body.
  pose proof (find_all_similar ["body"] _ _ Hall) as Hbody.
  destruct Hbody as [|b1 b2 ? ? Hb _]; simpl; [done|].
  by apply descendants_twin.
Qed.

Lemma twin_pre_header_content (a b : Element) :
  twin a b → pre_header_content a = pre_header_content b.
Proof.
  intros (_ & Hp & _). unfold pre_header_content, find_all_previous.
  by rewrite Hp.
Qed.

Lemma twin_header_document (a b : Element) :
  twin a b → header_document spec a = header_document spec b.
Proof.
  intros (Hn & _ & Hs).
  unfold header_document, current_content, find_next_siblings.
  by rewrite Hn, Hs.
Qed.

Lemma twin_process_headers (l k : list Element) (documents : list Document) :
  Forall2 twin l k →
  process_headers spec l documents = process_headers spec k documents.
Proof.
  intros Hlk. revert documents.
  induction Hlk as [|a b l k Hab _ IH]; intros documents; simpl; [done|].
  rewrite (twin_header_document a b Hab).
  destruct (header_document spec b); simpl; [apply IH | done].
Qed.

Lemma split_top_level_strings (soup1 soup2 : BeautifulSoup) :
  Forall2 alike soup1 soup2 →
  all_headers spec soup1 ≠ [] →
  split_text_from_file spec soup1 = split_text_from_file spec soup2.
Proof.
  intros Hsoup Hne. pose proof (all_headers_twin _ _ Hsoup) as Hall.
  unfold split_text_from_file.
  destruct Hall as [|a b l k Hab Hlk]; [done|].
  rewrite (twin_pre_header_content a b Hab).
  apply twin_process_headers. by constructor.
Qed.

End TopLevelStrings.

(** ** The pipeline *)

Module PipelineFacts.
Import Pipeline.

Section Tame.
Context {World : Type}.
Variable env : Env World.

Lemma tame_ret {A} (a : A) : tame (World := World) (mret a).
Proof. by intros st e. Qed.

Lemma tame_bind {A B} (m : M A) (k : A → M B) :
  tame (World := World) m → (∀ a, tame (k a)) → tame (m ≫= k).
Proof.
  intros Hm Hk st e. unfold mbind, M_bind.
  destruct (m st) as [[e'|a] st'] eqn:Hst.
  - intros [= <-]. apply (Hm st). by rewrite Hst.
  - apply Hk.
Qed.

Lemma tame_lift {A} (f : op A) : tame_op f → tame (World := World) (lift f).
Proof.
  intros Hf st e. unfold lift.
  destruct (f (world st)) as [r w] eqn:Hw. simpl. intros ->.
  apply (Hf (world st)). by rewrite Hw.
Qed.

Lemma tame_logger (lv : level) (msg : string) :
  tame (World := World) (logger lv msg).
Proof. by intros st e. Qed.

Lemma tame_if {A} (b : bool) (m1 m2 : M A) :
  tame (World := World) m1 → tame m2 → tame (if b then m1 else m2).
Proof. by destruct b. Qed.

Hypothesis Henv : tame_env env.

Lemma tame_preprocess_html (html_string : string)
    (target_tag target_class : option string) :
  tame (preprocess_html env html_string target_tag target_class).
Proof.
  destruct Henv as (Hopen & Hparse & Hfind & _).
  unfold preprocess_html.
  apply tame_bind; [by apply tame_lift|]. intros _.
  apply tame_if.
  - apply tame_bind; [apply tame_logger|]. intros _.
    apply tame_bind; [by apply tame_lift|]. intros [section|].
    + apply tame_ret.
    + apply tame_bind; [apply tame_logger|]. intros _. apply tame_ret.
  - apply tame_bind; [apply tame_logger|]. intros _. apply tame_ret.
Qed.

Lemma tame_split_text_from_file_path (file : string) :
  tame (split_text_from_file_path env file).
Proof.
  destruct Henv as (Hopen & Hparse & _).
  unfold split_text_from_file_path.
  apply tame_bind; [by apply tame_lift|]. intros html_content.
  apply tame_bind; [by apply tame_lift|]. intros soup.
  destruct (split_text_from_file HEADERS_TO_SPLIT_ON soup).
  - apply tame_ret.
  - by intros st e [= <-].
Qed.

Lemma tame_review (split : Document) : tame (review env split).
Proof.
  destruct Henv as (_ & _ & _ & _ & _ & Hsys & Hprint & Hmeta & Hinput).
  unfold review.
  repeat (apply tame_bind; [by apply tame_lift|]; intros ?).
  apply tame_ret.
Qed.

Lemma tame_select_splits (drop_empty_metadata interactive : bool)
    (html_header_splits all_html_header_splits : list Document) :
  tame (select_splits env drop_empty_metadata interactive
          html_header_splits all_html_header_splits).
Proof.
  revert all_html_header_splits.
  induction html_header_splits as [|split rest IH];
    intros all_html_header_splits; simpl; [apply tame_ret|].
  apply tame_if.
  - apply tame_bind; [apply tame_logger|]. intros _. apply IH.
  - apply tame_bind.
    + apply tame_if; [apply tame_review | apply tame_ret].
    + intros keep. apply IH.
Qed.

Lemma tame_split_html_body (file_path output_pkl output_txt : string)
    (interactive : bool) (target_tag target_class : option string)
    (drop_empty_metadata : bool) :
  tame (split_html_body env file_path output_pkl output_txt interactive
          target_tag target_class drop_empty_metadata).
Proof.
  pose proof Henv as (Hopen & _ & _ & Hdump & Hwrite & _).
  unfold split_html_body.
  apply tame_bind; [by apply tame_lift|]. intros html_string.
  apply tame_bind; [apply tame_preprocess_html|]. intros preprocessed_html.
  apply tame_if.
  - apply tame_bind; [apply tame_logger|]. intros _.
    apply tame_bind; [by apply tame_lift|]. intros _.
    by apply tame_lift.
  - apply tame_bind; [apply tame_split_text_from_file_path|].
    intros html_header_splits.
    apply tame_bind; [apply tame_select_splits|].
    intros all_html_header_splits.
    apply tame_bind; [by apply tame_lift|]. intros _.
    apply tame_bind; [apply tame_logger|]. intros _.
    apply tame_bind; [by apply tame_lift|]. intros _.
    apply tame_bind; [apply tame_logger|]. intros _.
    apply tame_logger.
Qed.

End Tame.

End PipelineFacts.

(** ** Lists *)

Section ListFacts.

Lemma filter_all {A} (P : A → Prop) `{!∀ x, Decision (P x)} (l : list A) :
  Forall P l → filter P l = l.
Proof.
  induction 1 as [|x l Hx _ IH]; [done|].
  by rewrite filter_cons, decide_True, IH.
Qed.

Lemma filter_none {A} (P : A → Prop) `{!∀ x, Decision (P x)} (l : list A) :
  Forall (λ x, ¬ P x) l → filter P l = [].
Proof.
  induction 1 as [|x l Hx _ IH]; [done|].
  by rewrite filter_cons, decide_False.
Qed.

Lemma before_header_app (sel : list string)
    (before after : list PageElement) (next : PageElement) :
  Forall (λ e, name_in sel e = false) before →
  name_in sel next = true →
  before_header sel (before ++ next :: after) = before.
Proof.
  intros Hb Hn. induction Hb as [|e l He _ IH]; simpl.
  - by rewrite Hn.
  - by rewrite He, IH.
Qed.

Lemma before_header_all (sel : list string) (siblings : list PageElement) :
  Forall (λ e, name_in sel e = false) siblings →
  before_header sel siblings = siblings.
Proof.
  induction 1 as [|e l He _ IH]; simpl; [done|]. by rewrite He, IH.
Qed.

Lemma before_header_subseteq (sel : list string)
    (siblings : list PageElement) :
  before_header sel siblings ⊆ siblings.
Proof.
  induction siblings as [|e l IH]; simpl; [done|].
  destruct (name_in sel e); [apply list_subseteq_nil|].
  intros x Hx. apply elem_of_cons in Hx as [->|Hx]; [by left|].
  right. by apply IH.
Qed.

End ListFacts.

(** ** The splitter returns *)

Lemma split_text_from_file_is_Some (spec : list (string * string))
    (soup : BeautifulSoup) :
  is_Some (split_text_from_file spec soup).
Proof.
  destruct (all_headers spec soup) as [|first others] eqn:Hall.
  - rewrite split_without_headers by done. by eexists.
  - destruct (split_with_headers spec soup _ _ Hall) as (per & -> & _).
    by eexists.
Qed.

(** ** The store *)

Module StoreFacts.
Import Store.

Lemma bind_unfold {A B} (m : St A) (k : A → St B) (h : store) :
  (m ≫= k) h
  = match m h with
    | (inl e, h') => (inl e, h')
    | (inr a, h') => k a h'
    end.
Proof. done. Qed.

Lemma bind_returns {A B} (m : St A) (k : A → St B) (h h' : store) (a : A) :
  m h = (inr a, h') → (m ≫= k) h = k a h'.
Proof. intros Hm. by rewrite bind_unfold, Hm. Qed.

Lemma bind_raises {A B} (m : St A) (k : A → St B) (h h' : store) (e : exn) :
  m h = (inl e, h') → (m ≫= k) h = (inl e, h').
Proof. intros Hm. by rewrite bind_unfold, Hm. Qed.

Lemma read_run {A} (as_A : value → option A) (inj : A → value)
    (l : addr) (h : store) (xs : list A) :
  (∀ x, as_A (inj x) = Some x) →
  h !! l = Some (ListObj (inj <$> xs)) →
  read as_A l h = (inr xs, h).
Proof.
  intros Hinj Hl. unfold read, items_of. rewrite bind_unfold, Hl.
  by rewrite (mapM_fmap_Some _ _ _ Hinj).
Qed.

Lemma contains_run (l : addr) (h : store) (names : list string)
    (e : PageElement) :
  h !! l = Some (ListObj (VStr <$> names)) →
  contains l (name_of e) h = (inr (name_in names e), h).
Proof.
  intros Hl. unfold contains.
  by rewrite (bind_returns _ _ _ _ _ (read_run as_str VStr l h names
                                       (λ _, eq_refl) Hl)).
Qed.

Lemma append_run (l : addr) (v : value) (h : store) (items : list value) :
  h !! l = Some (ListObj items) →
  append l v h = (inr tt, <[l := ListObj (items ++ [v])]> h).
Proof. intros Hl. unfold append. by rewrite Hl. Qed.

Lemma lookup_snoc (h : store) (o : object) : (h ++ [o]) !! length h = Some o.
Proof. by apply list_lookup_middle. Qed.

Lemma insert_snoc (h : store) (o o' : object) :
  <[length h := o']> (h ++ [o]) = h ++ [o'].
Proof.
  pose proof (insert_app_r h [o] 0 o') as Hins.
  by rewrite Nat.add_0_r in Hins.
Qed.

Section Loop.
Variable spec : list (string * string).
Variables names labels documents : addr.

(** The loop that collects [content_elements] leaves in that list what
    the loop of the splitter collects, and changes nothing else. *)
Lemma collect_content_run (siblings acc : list PageElement)
    (content_elements : addr) (h : store) :
  h !! names
  = Some (ListObj (VStr <$> headers_to_split_on spec)) →
  h !! content_elements = Some (ListObj (VNode <$> acc)) →
  names ≠ content_elements →
  Stateful.collect_content names content_elements siblings h
  = (inr tt,
     <[content_elements :=
         ListObj (VNode <$> collect_content spec siblings acc)]> h).
Proof.
  intros Hnames Hacc Hne. revert acc h Hnames Hacc.
  induction siblings as [|sibling siblings IH]; intros acc h Hnames Hacc;
    cbn [Stateful.collect_content collect_content].
  - by rewrite list_insert_id.
  - rewrite (bind_returns _ _ _ _ _ (contains_run _ _ _ sibling Hnames)).
    destruct (name_in _ sibling); [by rewrite list_insert_id|].
    destruct (is_Tag sibling).
    + rewrite (bind_returns _ _ _ _ _
                 (append_run _ (VNode sibling) _ _ Hacc)).
      rewrite (IH (acc ++ [sibling])).
      * by rewrite list_insert_insert_eq.
      * by rewrite list_lookup_insert_ne.
      * rewrite fmap_app. apply list_lookup_insert_eq.
        by eapply lookup_lt_Some.
    + rewrite bind_unfold. by apply IH.
Qed.

Lemma alloc_run (o : object) (h : store) :
  alloc o h = (inr (length h), h ++ [o]).
Proof. done. Qed.

Lemma getitem_run (d : addr) (key : option string) (h : store)
    (entries : gmap string string) :
  h !! d = Some (DictObj entries) →
  getitem d key h
  = (match key ≫= (entries !!.) with
     | Some v => inr v
     | None => inl KeyError
     end, h).
Proof.
  intros Hd. unfold getitem. rewrite Hd. by destruct (key ≫= _).
Qed.

Lemma setitem_run (d : addr) (key v : string) (h : store)
    (entries : gmap string string) :
  h !! d = Some (DictObj entries) →
  setitem d key v h = (inr tt, <[d := DictObj (<[key := v]> entries)]> h).
Proof. intros Hd. unfold setitem. by rewrite Hd. Qed.

Lemma copy_run (d : addr) (h : store) (entries : gmap string string) :
  h !! d = Some (DictObj entries) →
  copy d h = (inr (length h), h ++ [DictObj entries]).
Proof. intros Hd. unfold copy. by rewrite Hd. Qed.

Lemma append_document_run (l : addr) (page_content : string)
    (metadata : addr) (h : store) (items : list value) :
  h !! l = Some (ListObj items) →
  Stateful.append_document l page_content metadata h
  = (inr tt,
     <[l := ListObj (items ++ [VRef (length h)])]> h
     ++ [DocumentObj page_content metadata]).
Proof.
  intros Hl. unfold Stateful.append_document.
  rewrite (bind_returns _ _ _ _ _ (alloc_run _ _)).
  rewrite (append_run _ _ _ items) by by apply lookup_app_l_Some.
  f_equal. apply insert_app_l. by eapply lookup_lt_Some.
Qed.

(** One iteration of the loop over the headers: the objects it creates,
    and the one it changes. *)
Lemma header_document_run (header : Element) (h : store)
    (items : list value) :
  h !! names
  = Some (ListObj (VStr <$> headers_to_split_on spec)) →
  h !! labels = Some (DictObj (header_mapping spec)) →
  h !! documents = Some (ListObj items) →
  Stateful.header_document names labels documents
    header h
  = match header_document spec header with
    | Some d =>
        (inr tt,
         <[documents := ListObj (items ++ [VRef (length h + 3)])]> h
         ++ [DictObj (metadata d);
             ListObj
               (VNode <$> collect_content spec
                            (find_next_siblings header) []);
             DictObj (metadata d);
             DocumentObj (page_content d) (length h + 2)])
    | None => (inl KeyError, h ++ [DictObj ∅])
    end.
Proof.
  intros Hnames Hmap Hdocs.
  unfold Stateful.header_document, header_document.
  rewrite (bind_returns _ _ _ _ _ (alloc_run _ _)).
  rewrite bind_unfold, (getitem_run _ _ _ (header_mapping spec))
    by by apply lookup_app_l_Some.
  destruct (name_of (node header)) as [header_name|]; [|done]. simpl.
  destruct (header_mapping spec !! header_name) as [label|];
    [|done].
  simpl. set (m := <[label := get_text (node header)]> ∅).
  rewrite (bind_returns _ _ _ _ _
             (setitem_run _ _ _ _ ∅ (lookup_snoc _ _))), insert_snoc.
  fold m.
  assert (Hlen : ∀ (k : store) o, length (k ++ [o]) = length k + 1).
  { intros k o. rewrite length_app. simpl. lia. }
  set (h1 := h ++ [DictObj m]).
  rewrite (bind_returns _ _ _ _ _ (alloc_run _ _)).
  rewrite (bind_returns _ _ _ _ _
             (collect_content_run (find_next_siblings header) []
                (length h1) (h1 ++ [ListObj []])
                (lookup_app_l_Some _ _ _ _
                   (lookup_app_l_Some _ _ _ _ Hnames))
                (lookup_snoc _ _)
                ltac:(apply lookup_lt_Some in Hnames; unfold h1;
                      rewrite Hlen; lia))),
    insert_snoc.
  set (content := collect_content spec _ []).
  rewrite (bind_returns _ _ _ _ _
             (read_run as_node VNode _ _ content (λ _, eq_refl)
                (lookup_snoc _ _))).
  set (h2 := h1 ++ [ListObj (VNode <$> content)]).
  fold (join_content content).
  assert (Hm : h2 !! length h = Some (DictObj m)).
  { apply lookup_app_l_Some, lookup_snoc. }
  assert (Hd : (h2 ++ [DictObj m]) !! documents = Some (ListObj items)).
  { by do 3 apply lookup_app_l_Some. }
  assert (Hend : ∀ page,
    (copy (length h)
     ≫= λ metadata, Stateful.append_document documents page metadata) h2
    = (inr tt,
       <[documents := ListObj (items ++ [VRef (length h + 3)])]> h
       ++ [DictObj m; ListObj (VNode <$> content); DictObj m;
           DocumentObj page (length h + 2)])).
  { intros page.
    rewrite (bind_returns _ _ _ _ _ (copy_run _ _ _ Hm)).
    rewrite (append_document_run _ _ _ _ _ Hd).
    unfold h2, h1. rewrite !Hlen, <- !Nat.add_assoc. simpl.
    rewrite !insert_app_l by
      (rewrite ?length_app; apply lookup_lt_Some in Hdocs; lia).
    by rewrite <- !app_assoc. }
  unfold current_content. fold content.
  destruct (Str.truthy (Str.strip (join_content content))); apply Hend.
Qed.

Lemma intact_but_trans (l : addr) (h1 h2 h3 : store) :
  intact_but l h1 h2 → intact_but l h2 h3 → intact_but l h1 h3.
Proof. intros H12 H23 a o Ha Hne. by apply H23; [apply H12|]. Qed.

Lemma intact_but_snoc (l : addr) (h : store) (k : store) (o : object) :
  intact_but l h (<[l := o]> h ++ k).
Proof.
  intros a o' Ha Hne. apply lookup_app_l_Some.
  by rewrite list_lookup_insert_ne.
Qed.

Lemma document_at_intact_but (l : addr) (h h' : store) (items : list value)
    (v : value) (d : Document) :
  intact_but l h h' → h !! l = Some (ListObj items) →
  document_at h v = Some d → document_at h' v = Some d.
Proof.
  intros Hh Hl. destruct v as [| | |a]; simpl; [done..|].
  destruct (h !! a) as [[| |page_content m]|] eqn:Ha; [done..| |done].
  destruct (h !! m) as [[|entries|]|] eqn:Hm; [done| |done..].
  intros [= <-].
  rewrite (Hh a _ Ha) by (intros ->; congruence).
  by rewrite (Hh m _ Hm) by (intros ->; congruence).
Qed.

Lemma documents_intact_but (l : addr) (h h' : store) (items items0 : list value)
    (out : list Document) :
  intact_but l h h' → h !! l = Some (ListObj items0) →
  mapM (document_at h) items = Some out →
  mapM (document_at h') items = Some out.
Proof.
  intros Hh Hl. rewrite !mapM_Some. intros Hout.
  eapply Forall2_impl; [done|].
  intros v d. by apply document_at_intact_but with l items0.
Qed.

(** One iteration, on the chunks that the list [documents] holds. *)
Lemma header_document_step (header : Element) (h : store)
    (items : list value) (out : list Document) :
  h !! names
  = Some (ListObj (VStr <$> headers_to_split_on spec)) →
  h !! labels = Some (DictObj (header_mapping spec)) →
  h !! documents = Some (ListObj items) →
  mapM (document_at h) items = Some out →
  ∃ r h',
    Stateful.header_document names labels documents
      header h = (r, h')
    ∧ intact_but documents h h'
    ∧ match header_document spec header with
      | Some d =>
          r = inr tt
          ∧ ∃ items',
              h' !! documents = Some (ListObj items')
              ∧ mapM (document_at h') items' = Some (out ++ [d])
      | None => r = inl KeyError
      end.
Proof.
  intros Hnames Hmap Hdocs Hout.
  rewrite (header_document_run header h items) by done.
  pose proof (lookup_lt_Some _ _ _ Hdocs) as Hlt.
  destruct (header_document spec header) as [[page m]|];
    do 2 eexists; (split; [done|]).
  - split; [apply intact_but_snoc|]. split; [done|].
    eexists. split.
    { apply lookup_app_l_Some. by apply list_lookup_insert_eq. }
    apply mapM_Some, Forall2_app.
    + apply mapM_Some.
      eapply documents_intact_but; [apply intact_but_snoc|done..].
    + constructor; [|constructor]. simpl.
      rewrite lookup_app_r, length_insert by (rewrite length_insert; lia).
      replace (length h + 3 - length h) with 3 by lia. simpl.
      rewrite lookup_app_r, length_insert by (rewrite length_insert; lia).
      by replace (length h + 2 - length h) with 2 by lia.
  - split; [|done]. intros a o Ha _. by apply lookup_app_l_Some.
Qed.

(** The loop over the headers. *)
Lemma for_each_header_run (headers : list Element) (h : store)
    (items : list value) (out : list Document) :
  names ≠ documents →
  h !! names
  = Some (ListObj (VStr <$> headers_to_split_on spec)) →
  h !! labels = Some (DictObj (header_mapping spec)) →
  h !! documents = Some (ListObj items) →
  mapM (document_at h) items = Some out →
  ∃ r h',
    for_each headers
      (Stateful.header_document names labels documents) h
    = (r, h')
    ∧ intact_but documents h h'
    ∧ match process_headers spec headers out with
      | Some out' => r = inr tt ∧ documents_at h' documents = Some out'
      | None => r = inl KeyError
      end.
Proof.
  intros Hne. revert h items out.
  induction headers as [|header headers IH]; intros h items out
    Hnames Hmap Hdocs Hout; cbn [for_each process_headers].
  - exists (inr tt), h. split; [done|]. split; [by intros a o Ha _|].
    split; [done|]. unfold documents_at. by rewrite Hdocs.
  - destruct (header_document_step header h items out)
      as (r & h1 & Hrun & Hh1 & Hstep); [done..|].
    rewrite bind_unfold, Hrun.
    destruct (header_document spec header) as [d|]; simpl.
    + destruct Hstep as (-> & items' & Hdocs' & Hout').
      destruct (IH h1 items' (out ++ [d])) as (r & h2 & Hrun2 & Hh2 & Hloop);
        [by apply Hh1 | apply Hh1; [done|intros ->; congruence] | done..|].
      exists r, h2. split; [done|].
      split; [by eapply intact_but_trans|done].
    + subst r. by exists (inl KeyError), h1.
Qed.

End Loop.

Lemma documents_at_intact (h h' : store) (documents : addr)
    (out : list Document) :
  intact h h' → documents_at h documents = Some out →
  documents_at h' documents = Some out.
Proof.
  intros Hh. unfold documents_at.
  destruct (h !! documents) as [[items| |]|] eqn:Hdocs; [|done..].
  rewrite (Hh _ _ Hdocs), !mapM_Some. intros Hout.
  eapply Forall2_impl; [done|]. intros v d.
  destruct v as [| | |a]; simpl; [done..|].
  destruct (h !! a) as [[| |page_content m]|] eqn:Ha; [done..| |done].
  rewrite (Hh _ _ Ha).
  destruct (h !! m) as [[|entries|]|] eqn:Hm; [done| |done..].
  by rewrite (Hh _ _ Hm).
Qed.

(** The first chunk of the list, when there is one. *)
Lemma first_document_run (documents : addr) (keep : bool) (page : string)
    (h : store) :
  h !! documents = Some (ListObj []) →
  ∃ h' items,
    (if keep
     then metadata ← alloc (DictObj ∅);
          Stateful.append_document documents page metadata
     else mret tt) h
    = (inr tt, h')
    ∧ intact_but documents h h'
    ∧ h' !! documents = Some (ListObj items)
    ∧ mapM (document_at h') items
      = Some (if keep then [mkDocument page ∅] else []).
Proof.
  intros Hdocs. destruct keep.
  - rewrite (bind_returns _ _ _ _ _ (alloc_run _ _)).
    rewrite (append_document_run _ _ _ _ []) by by apply lookup_app_l_Some.
    pose proof (lookup_lt_Some _ _ _ Hdocs) as Hlt.
    rewrite insert_app_l, <- app_assoc by done.
    do 2 eexists. split; [done|]. split; [apply intact_but_snoc|].
    split; [apply lookup_app_l_Some; by apply list_lookup_insert_eq|].
    assert (Hlen : length (h ++ [DictObj ∅]) = length h + 1).
    { rewrite length_app. simpl. lia. }
    simpl. rewrite Hlen.
    rewrite lookup_app_r, length_insert by (rewrite length_insert; lia).
    replace (length h + 1 - length h) with 1 by lia. simpl.
    rewrite lookup_app_r, length_insert by (rewrite length_insert; lia).
    by rewrite Nat.sub_diag.
  - exists h, []. split; [done|]. by split; [intros a o Ha _|].
Qed.

(** A call of the splitter: it returns the third object that it creates,
    the list [documents]; this list holds the chunks that the splitter
    computes from the tree, and every object that existed is as it was. *)
Lemma split_text_from_file_run (spec : list (string * string))
    (soup : BeautifulSoup) (HEADERS_TO_SPLIT_ON : addr) (h : store) :
  h !! HEADERS_TO_SPLIT_ON = Some (tuples spec) →
  ∃ r h',
    Stateful.split_text_from_file HEADERS_TO_SPLIT_ON soup h = (r, h')
    ∧ intact h h'
    ∧ match split_text_from_file spec soup with
      | Some out =>
          r = inr (length h + 2)
          ∧ documents_at h' (length h + 2) = Some out
      | None => r = inl KeyError
      end.
Proof.
  intros Hc.
  assert (Hpairs : ∀ tag : string * string,
            as_pair (VPair tag.1 tag.2) = Some tag) by by intros [].
  assert (Hlen : ∀ (k : store) o, length (k ++ [o]) = length k + 1).
  { intros k o. rewrite length_app. simpl. lia. }
  unfold Stateful.split_text_from_file, Stateful.tag_names,
    Stateful.tag_labels.
  rewrite (bind_returns _ _ _ _ _
             (bind_returns _ _ _ _ _ (read_run _ _ _ _ spec Hpairs Hc))).
  set (h1 := h ++ [ListObj (VStr <$> map fst spec)]).
  assert (Hc1 : h1 !! HEADERS_TO_SPLIT_ON = Some (tuples spec))
    by by apply lookup_app_l_Some.
  rewrite (bind_returns _ _ _ _ _
             (bind_returns _ _ _ _ _ (read_run _ _ _ _ spec Hpairs Hc1))).
  set (h2 := h1 ++ [DictObj (dict spec)]).
  rewrite (bind_returns _ _ _ _ _ (alloc_run _ _)).
  set (h3 := h2 ++ [ListObj []]).
  assert (Hnames : h3 !! length h
                   = Some (ListObj (VStr <$> headers_to_split_on spec))).
  { by do 2 apply lookup_app_l_Some; apply lookup_snoc. }
  assert (Hmap : h3 !! length h1 = Some (DictObj (header_mapping spec))).
  { apply lookup_app_l_Some, lookup_snoc. }
  assert (Hdocs : h3 !! length h2 = Some (ListObj [])) by apply lookup_snoc.
  assert (Hh3 : intact h h3).
  { intros a o Ha. by do 3 apply lookup_app_l_Some. }
  assert (Hl1 : length h1 = length h + 1) by apply Hlen.
  assert (Hl2 : length h2 = length h + 2).
  { unfold h2. rewrite Hlen. lia. }
  rewrite (bind_returns _ _ _ _ _
             (read_run as_str VStr _ _ _ (λ _, eq_refl) Hnames)).
  fold (all_headers spec soup).
  unfold split_text_from_file.
  assert (Hfinal : ∀ h4, intact_but (length h2) h3 h4 → intact h h4).
  { intros h4 Hh4 a o Ha. apply Hh4; [by apply Hh3|].
    apply lookup_lt_Some in Ha. lia. }
  rewrite <- Hl2.
  destruct (all_headers spec soup) as [|first_header others] eqn:Hall.
  - destruct (first_document_run (length h2)
                (Str.truthy (Str.strip (get_text (body_node soup))))
                (Str.strip (get_text (body_node soup))) h3 Hdocs)
      as (h4 & items & Hrun & Hh4 & Hitems & Hout).
    rewrite (bind_returns _ _ _ _ _ Hrun).
    do 2 eexists. split; [done|]. split; [by apply Hfinal|].
    destruct (Str.truthy _); (split; [done|]);
      unfold documents_at; by rewrite Hitems.
  - destruct (first_document_run (length h2)
                (Str.truthy (Str.strip (pre_header_content first_header)))
                (Str.strip (pre_header_content first_header)) h3 Hdocs)
      as (h4 & items & Hrun & Hh4 & Hitems & Hout).
    rewrite (bind_returns _ _ _ _ _ Hrun).
    destruct (for_each_header_run spec (length h) (length h1) (length h2)
                (first_header :: others) h4 items
                (if Str.truthy (Str.strip (pre_header_content first_header))
                 then [mkDocument
                         (Str.strip (pre_header_content first_header)) ∅]
                 else []))
      as (r & h5 & Hloop & Hh5 & Hres); [lia|apply Hh4; [done|lia]..|done|done|].
    rewrite bind_unfold, Hloop.
    destruct (process_headers spec _ _) as [out|].
    + destruct Hres as [-> Hres]. do 2 eexists. split; [done|].
      split; [|done]. apply Hfinal. by eapply intact_but_trans.
    + subst r. do 2 eexists. split; [done|].
      split; [|done]. apply Hfinal. by eapply intact_but_trans.
Qed.

End StoreFacts.

(** ** The scanned subtree and its text *)

Section ScannedFacts.

Lemma locate_children_nodes (ps cs prev : list PageElement) :
  Forall (λ c, ∀ ps prev sibs, map node (locate ps c prev sibs) = preorder c)
    cs →
  map node (locate_children (locate ps) cs prev) = concat (map preorder cs).
Proof.
  intros Hcs. revert prev.
  induction Hcs as [|c cs Hc _ IH]; intros prev; simpl; [done|].
  by rewrite map_app, Hc, IH.
Qed.

Lemma locate_nodes (e : PageElement) (ps prev sibs : list PageElement) :
  map node (locate ps e prev sibs) = preorder e.
Proof.
  revert ps prev sibs.
  induction e as [n cs IH|s|s|k s] using PageElement_nested_ind;
    intros ps prev sibs; simpl; [|done..].
  f_equal. by rewrite locate_children_nodes.
Qed.

Lemma soup_descendants_nodes (soup : BeautifulSoup) :
  map node (soup_descendants soup) = concat (map preorder soup).
Proof.
  apply locate_children_nodes, Forall_forall. intros c _ ps prev sibs.
  apply locate_nodes.
Qed.

Lemma name_in_single (name : string) (e : PageElement) :
  name_in [name] e = bool_decide (name_of e = Some name).
Proof.
  unfold name_in. destruct (name_of e) as [n|]; [|done].
  apply bool_decide_ext. rewrite list_elem_of_singleton.
  split; [by intros -> | by intros [= ->]].
Qed.

Lemma find_first_named (name : string) (scope : list Element) :
  node <$> head (find_all [name] scope) = first_named name (map node scope).
Proof.
  unfold find_all. induction scope as [|el scope IH]; [done|].
  rewrite filter_cons. simpl. rewrite <- IH, <- name_in_single.
  case_decide as Hel.
  - by rewrite Hel.
  - by apply not_true_is_false in Hel as ->.
Qed.

Lemma body_node_scanned (soup : BeautifulSoup) :
  body_node soup = scanned_subtree soup.
Proof.
  unfold body_node, scanned_subtree, soup_body.
  rewrite <- soup_descendants_nodes, <- find_first_named.
  by destruct (head _).
Qed.

Lemma first_named_name (name : string) (l : list PageElement)
    (e : PageElement) :
  first_named name l = Some e → name_of e = Some name.
Proof.
  induction l as [|x l IH]; simpl; [done|].
  case_bool_decide as Hx; [by intros [= <-] | done].
Qed.

Lemma scanned_subtree_types (soup : BeautifulSoup) :
  interesting_string_types (scanned_subtree soup) = None.
Proof.
  unfold scanned_subtree.
  destruct (first_named _ _) as [e|] eqn:He; [|done].
  apply first_named_name in He. by destruct e; simplify_eq/=.
Qed.

Lemma stripped_filter (s : string) :
  stripped s = filter (λ t, Str.truthy t = true) [Str.strip s].
Proof.
  unfold stripped. rewrite filter_cons, filter_nil.
  destruct (Str.truthy (Str.strip s)) eqn:Hs; by case_decide.
Qed.

Lemma texts_app (l k : list PageElement) :
  filter (λ t, Str.truthy t = true) (map Str.strip (omap text_of (l ++ k)))
  = filter (λ t, Str.truthy t = true) (map Str.strip (omap text_of l))
    ++ filter (λ t, Str.truthy t = true) (map Str.strip (omap text_of k)).
Proof. by rewrite omap_app, map_app, filter_app. Qed.

Lemma strings_of_texts (e : PageElement) : strings_of None e = texts e.
Proof.
  unfold texts, text_strings.
  induction e as [n cs IH|s|s|k s] using PageElement_nested_ind; simpl;
    [|apply stripped_filter|done..].
  induction IH as [|c cs Hc _ IHcs]; simpl; [done|].
  by rewrite texts_app, Hc, IHcs.
Qed.

Lemma get_text_scanned (soup : BeautifulSoup) :
  get_text (body_node soup) = Str.join " " (texts (scanned_subtree soup)).
Proof.
  rewrite body_node_scanned. unfold get_text, all_strings.
  by rewrite scanned_subtree_types, strings_of_texts.
Qed.

Lemma texts_solid (e : PageElement) : Forall solid (texts e).
Proof. rewrite <- strings_of_texts. apply strings_of_solid. Qed.

End ScannedFacts.

(** * The scenarios of the specification *)

(** [<h1>A</h1><p>hello</p><h2>B</h2><p>world</p>] with the levels 1
    and 2. *)
Example scenario_two_headers :
  split_text_from_file [("h1", "Header 1"); ("h2", "Header 2")]
    [Tag "h1" [NavigableString "A"]; Tag "p" [NavigableString "hello"];
     Tag "h2" [NavigableString "B"]; Tag "p" [NavigableString "world"]]
  = Some [mkDocument "hello" {[ "Header 1" := "A" ]};
          mkDocument "world" {[ "Header 2" := "B" ]}].
Proof. by vm_compute. Qed.

(** [<p>only text, no headers</p>] *)
Example scenario_no_headers :
  split_text_from_file HEADERS_TO_SPLIT_ON
    [Tag "p" [NavigableString "only text, no headers"]]
  = Some [mkDocument "only text, no headers" ∅].
Proof. by vm_compute. Qed.

(** A document as a browser saves it, with [html], [head] and [body]: the
    text of each tag that starts before the first header enters the
    pre-header chunk. *)
Example scenario_full_page :
  split_text_from_file HEADERS_TO_SPLIT_ON
    [Tag "html"
       [Tag "head" [Tag "title" [NavigableString " T "]];
        Tag "body"
          [Tag "h1" [NavigableString "A"]; NavigableString "bare";
           Tag "h2" [];
           Tag "div" [Tag "p" [NavigableString "x  y "]; Comment "c"]]]]
  = Some [mkDocument "T A bare x  y T T A bare x  y" ∅;
          mkDocument "" {[ "Header 1" := "A" ]};
          mkDocument "x  y" {[ "Header 2" := "" ]}].
Proof. by vm_compute. Qed.

(** A page with a style sheet and a script in its [head]: their strings
    are in classes of their own, so they are in the text of the [style] and
    [script] tags but not in the text of [head] and [html]. *)
Example scenario_style_and_script :
  split_text_from_file HEADERS_TO_SPLIT_ON
    [Tag "html"
       [Tag "head"
          [Tag "style" [ContainedString Stylesheet "s"];
           Tag "script" [ContainedString Script "js"]];
        Tag "body"
          [Tag "h1" [NavigableString "A"]; Tag "p" [NavigableString "x"]]]]
  = Some [mkDocument "A x s js A x" ∅;
          mkDocument "x" {[ "Header 1" := "A" ]}].
Proof. by vm_compute. Qed.

(** * The claims *)






(** C3 (amended).  In a document without headers, for a specification
    that lists at least one tag, the output is made from the text strings
    of the scanned subtree (the first [body] tag, or the whole document
    when there is none): each string loses the white space at its ends, the
    strings that are empty then are left out, and the rest is joined by
    single spaces into the text of one chunk with empty metadata; white
    space inside a string stays as it is.  When no string is left the
    output is the empty sequence, as it is for an empty document and for an
    empty body.  For a page with a title in its [head] and, in its [body],
    [<p> x  y </p>], a comment, a script and [<p>z</p>], the output is the
    one chunk [x  y z]. *)
Theorem C3_no_headers :
  (∀ spec soup,
     spec ≠ [] →
     all_headers spec soup = [] →
     split_text_from_file spec soup
     = Some match texts (scanned_subtree soup) with
            | [] => []
            | strings => [mkDocument (Str.join " " strings) ∅]
            end)
  ∧ (∀ spec, split_text_from_file spec [] = Some [])
  ∧ (∀ spec, split_text_from_file spec [Tag "body" []] = Some [])
  ∧ split_text_from_file HEADERS_TO_SPLIT_ON Samples.plain_page
    = Some [mkDocument "x  y z" ∅].
Proof.
  split; [|split; [done|split; [done|by vm_compute]]].
  intros spec soup _ Hall.
  rewrite split_without_headers, get_text_scanned by done.
  destruct (texts (scanned_subtree soup)) as [|t ts] eqn:Hts; [done|].
  destruct (StrFacts.join_solid (t :: ts)) as [_ ->]; [|done..].
  rewrite <- Hts. apply texts_solid.
Qed.

(** The statement above at [<p> only text,  no headers </p>]. *)
Lemma C3_no_headers_witness :
  split_text_from_file HEADERS_TO_SPLIT_ON
    [Tag "p" [NavigableString " only text,  no headers "]]
  = Some [mkDocument "only text,  no headers" ∅].
Proof.
  exact (proj1 C3_no_headers HEADERS_TO_SPLIT_ON
           [Tag "p" [NavigableString " only text,  no headers "]]
           ltac:(discriminate) eq_refl).
Defined.

(** C3, as stated, fails: the text of the chunk is not normalized inside
    the strings.  For [<p>x  y</p>] the output is the chunk [x  y], with
    both spaces, while the whitespace-normalized visible text of the
    document is [x y]. *)
Lemma C3_counterexample :
  all_headers HEADERS_TO_SPLIT_ON Samples.double_space = []
  ∧ split_text_from_file HEADERS_TO_SPLIT_ON Samples.double_space
    = Some [mkDocument "x  y" ∅]
  ∧ spec_whitespace_normalized
      (spec_visible_text (scanned_subtree Samples.double_space))
    = "x y"
  ∧ ¬ ∃ d,
        split_text_from_file HEADERS_TO_SPLIT_ON Samples.double_space
        = Some [d]
        ∧ page_content d
          = spec_whitespace_normalized
              (spec_visible_text (scanned_subtree Samples.double_space)).
Proof.
  split; [by vm_compute|]. split; [by vm_compute|]. split; [by vm_compute|].
  intros (d & Hd & Ht). vm_compute in Hd, Ht. by simplify_eq.
Qed.

(** C4.  The chunk of a header, the one at the header's place in the
    output, is made of tags among the siblings that follow the header, and
    the scan stops at the first following sibling whose tag is named in the
    specification, whatever its level: the elements collected are the tags
    in front of that sibling, and the text of the chunk is their non-empty
    texts joined by single spaces; when no such sibling follows, they are
    all the tag siblings that follow the header. *)
Theorem C4_sibling_scan (spec : list (string * string))
    (soup : BeautifulSoup) (i : nat) (header : Element) :
  all_headers spec soup !! i = Some header →
  let content_elements :=
    collect_content spec (find_next_siblings header) [] in
  ∃ pre per d,
    split_text_from_file spec soup = Some (pre ++ per)
    ∧ Forall (λ d, metadata d = ∅) pre
    ∧ per !! i = Some d
    ∧ (∀ e, e ∈ content_elements →
            is_Tag e = true ∧ e ∈ next_siblings header)
    ∧ (∀ before next_name next_contents after,
         next_siblings header
         = before ++ Tag next_name next_contents :: after →
         next_name ∈ headers_to_split_on spec →
         Forall (λ e, name_in (headers_to_split_on spec) e = false) before →
         content_elements = filter (λ e, is_Tag e = true) before
         ∧ page_content d = Str.join " " (tag_texts before))
    ∧ (Forall (λ e, name_in (headers_to_split_on spec) e = false)
         (next_siblings header) →
       content_elements
       = filter (λ e, is_Tag e = true) (next_siblings header)
       ∧ page_content d = Str.join " " (tag_texts (next_siblings header))).
Proof.
  intros Hi. simpl. rewrite content_elements_spec.
  destruct (all_headers spec soup) as [|first others] eqn:Hall; [done|].
  destruct (split_with_headers spec soup _ _ Hall) as (per & Hout & Hper).
  rewrite Hall in Hper.
  destruct (Forall2_lookup_l _ _ _ _ _ Hper Hi)
    as (d & Hd & n & label & _ & _ & _ & Hc).
  unfold chunk_text in Hc.
  exists (pre_header_chunk first), per, d.
  split; [done|]. split; [apply pre_header_chunk_empty_metadata|].
  split; [done|]. split; [|split].
  - intros e He. apply list_elem_of_filter in He as [He Hin].
    split; [done|]. by eapply before_header_subseteq.
  - intros before next_name next_contents after Hsib Hn Hb.
    rewrite Hc, Hsib, before_header_app; [done..|].
    apply name_in_spec. eauto.
  - intros Hnone. by rewrite Hc, before_header_all.
Qed.

(** The statement above at the first header of
    [<h1>A</h1><p>x</p><h3>C</h3><p>y</p><h2>B</h2>]: the scan for [A]
    stops at the level 3 header, and the chunk of [A] is [x]. *)
Lemma C4_sibling_scan_witness :
  ∃ pre per d,
    split_text_from_file HEADERS_TO_SPLIT_ON Samples.mixed_levels
    = Some (pre ++ per)
    ∧ Forall (λ d, metadata d = ∅) pre
    ∧ per !! 0 = Some d
    ∧ collect_content HEADERS_TO_SPLIT_ON
        (find_next_siblings Samples.mixed_levels_h1) []
      = [Tag "p" [NavigableString "x"]]
    ∧ page_content d = "x".
Proof.
  destruct (C4_sibling_scan HEADERS_TO_SPLIT_ON Samples.mixed_levels 0
              Samples.mixed_levels_h1 eq_refl)
    as (pre & per & d & Hout & Hpre & Hd & _ & Hstop & _).
  exists pre, per, d. split; [done|]. split; [done|]. split; [done|].
  refine (Hstop [Tag "p" [NavigableString "x"]] "h3" [NavigableString "C"]
            [Tag "p" [NavigableString "y"]; Tag "h2" [NavigableString "B"]]
            eq_refl _ _).
  - vm_compute. do 2 right. left.
  - repeat constructor.
Defined.

(** C5.  A header whose next sibling is again a header still gets its
    chunk: the chunk at the header's place has the empty text and the
    single metadata entry of that header. *)
Theorem C5_header_followed_by_header (spec : list (string * string))
    (soup : BeautifulSoup) (i : nat) (header : Element)
    (next_name : string) (next_contents rest : list PageElement) :
  all_headers spec soup !! i = Some header →
  next_siblings header = Tag next_name next_contents :: rest →
  next_name ∈ headers_to_split_on spec →
  ∃ pre per header_name label,
    split_text_from_file spec soup = Some (pre ++ per)
    ∧ Forall (λ d, metadata d = ∅) pre
    ∧ name_of (node header) = Some header_name
    ∧ header_mapping spec !! header_name = Some label
    ∧ per !! i
      = Some (mkDocument "" {[ label := get_text (node header) ]}).
Proof.
  intros Hi Hsib Hnext.
  destruct (all_headers spec soup) as [|first others] eqn:Hall; [done|].
  destruct (split_with_headers spec soup _ _ Hall) as (per & Hout & Hper).
  rewrite Hall in Hper.
  destruct (Forall2_lookup_l _ _ _ _ _ Hper Hi)
    as (d & Hd & n & label & Hn & Hl & Hm & Hc).
  exists (pre_header_chunk first), per, n, label.
  repeat split; [done|apply pre_header_chunk_empty_metadata|done..|].
  rewrite Hd. f_equal. destruct d as [text meta]. simpl in *. subst meta.
  f_equal. rewrite Hc. unfold chunk_text. rewrite Hsib. simpl.
  assert (name_in (headers_to_split_on spec) (Tag next_name next_contents)
          = true) as -> by (apply name_in_spec; eauto).
  done.
Qed.

(** The statement above at the first header of
    [<h1>A</h1><h2>B</h2><p>x</p>]. *)
Lemma C5_header_followed_by_header_witness :
  ∃ pre per header_name label,
    split_text_from_file HEADERS_TO_SPLIT_ON Samples.adjacent_headers
    = Some (pre ++ per)
    ∧ Forall (λ d, metadata d = ∅) pre
    ∧ name_of (node Samples.adjacent_headers_h1) = Some header_name
    ∧ header_mapping HEADERS_TO_SPLIT_ON !! header_name = Some label
    ∧ per !! 0
      = Some (mkDocument ""
                {[ label := get_text (node Samples.adjacent_headers_h1) ]}).
Proof.
  refine (C5_header_followed_by_header HEADERS_TO_SPLIT_ON
            Samples.adjacent_headers 0 Samples.adjacent_headers_h1
            "h2" [NavigableString "B"] [Tag "p" [NavigableString "x"]]
            eq_refl eq_refl _).
  vm_compute. right. left.
Defined.

(** C6.  The output is at most one chunk without metadata followed by the
    chunks of the headers, one for each header and in the order of the
    headers, which is their order in the document. *)
Theorem C6_chunk_order (spec : list (string * string))
    (soup : BeautifulSoup) :
  ∃ pre per,
    split_text_from_file spec soup = Some (pre ++ per)
    ∧ length pre ≤ 1
    ∧ Forall (λ d, metadata d = ∅) pre
    ∧ Forall2 (chunk_of spec) (all_headers spec soup) per
    ∧ Forall (λ d, metadata d ≠ ∅) per
    ∧ StronglySorted precedes (all_headers spec soup).
Proof.
  destruct (all_headers spec soup) as [|first others] eqn:Hall.
  - exists (if Str.truthy (get_text (body_node soup))
            then [mkDocument (get_text (body_node soup)) ∅] else []), [].
    rewrite app_nil_r.
    split; [by apply split_without_headers|].
    destruct (Str.truthy _); simpl; repeat split;
      repeat constructor.
  - destruct (split_with_headers spec soup _ _ Hall) as (per & Hout & Hper).
    exists (pre_header_chunk first), per.
    destruct (pre_header_chunk_empty_metadata first) as [Hlen Hpre].
    rewrite <- Hall. repeat split; [done..| |].
    + by eapply Forall2_chunk_nonempty.
    + apply all_headers_sorted.
Qed.

(** C8.  The backward walk visits the tags that enclose the first header
    (they start before it), and the whole text of every visited tag, when
    not empty, is one of the texts of the pre-header chunk.  Hence for
    [<body><p>intro</p><h1>A</h1><p>body</p></body>] the pre-header chunk
    contains the text [body], which stands after the first header and is
    the text of the chunk of that header. *)
Theorem C8_ancestors_in_pre_header :
  (∀ spec soup first_header others,
     all_headers spec soup = first_header :: others →
     (∀ p, p ∈ parents first_header →
           node first_header ∈ preorder p
           ∧ p ∈ find_all_previous first_header)
     ∧ (∀ p, p ∈ find_all_previous first_header →
             Str.truthy (get_text p) = true →
             get_text p ∈ pre_header_texts first_header))
  ∧ all_headers HEADERS_TO_SPLIT_ON Samples.intro_in_body
    = [Samples.intro_in_body_h1]
  ∧ Tag "p" [NavigableString "body"]
    ∈ next_siblings Samples.intro_in_body_h1
  ∧ split_text_from_file HEADERS_TO_SPLIT_ON Samples.intro_in_body
    = Some [mkDocument "intro A body intro" ∅;
            mkDocument "body" {[ "Header 1" := "A" ]}]
  ∧ Str.contains "body" "intro A body intro" = true.
Proof.
  split; [|split; [by vm_compute|split; [by left|by vm_compute]]].
  intros spec soup first_header others Hall. split.
  - intros p Hp.
    pose proof (all_headers_linked spec soup) as Hlinked.
    pose proof (all_headers_enclosed spec soup) as Hencl.
    rewrite Hall in Hlinked, Hencl.
    apply Forall_cons in Hlinked as [Hlinked _].
    apply Forall_cons in Hencl as [Hencl _].
    unfold well_linked, linked in Hlinked. rewrite Forall_forall in Hlinked.
    unfold enclosed, inside in Hencl. rewrite Forall_forall in Hencl.
    destruct (Hlinked p Hp) as [Htag Hprev].
    split; [by apply Hencl | by apply list_elem_of_filter].
  - intros p Hp Ht. apply list_elem_of_filter in Hp as [Htag Hp].
    unfold pre_header_texts, tag_texts.
    apply list_elem_of_filter. split; [done|].
    apply list_elem_of_fmap. exists p. split; [done|].
    rewrite filter_reverse. apply elem_of_reverse.
    by apply list_elem_of_filter.
Qed.

(** The statement above at the [body] tag of
    [<body><p>intro</p><h1>A</h1><p>body</p></body>]. *)
Lemma C8_ancestors_in_pre_header_witness :
  node Samples.intro_in_body_h1 ∈ preorder (Tag "body" Samples.intro_doc)
  ∧ Tag "body" Samples.intro_doc
    ∈ find_all_previous Samples.intro_in_body_h1.
Proof.
  refine (proj1 (proj1 C8_ancestors_in_pre_header HEADERS_TO_SPLIT_ON
                   Samples.intro_in_body Samples.intro_in_body_h1 []
                   eq_refl)
            (Tag "body" Samples.intro_doc) _).
  left.
Defined.

(** C9 (amended).  The chunk of a header takes its text from the tags among
    the siblings that follow the header, up to the next header sibling:
    strings that stand directly among these siblings add nothing to that
    chunk.  When such a string stands at the top level of the document,
    outside every tag, it is left out of every chunk: the output of a
    document with a header does not change when its top-level strings
    change. *)
Theorem C9_bare_text_siblings :
  (∀ spec soup i header,
     all_headers spec soup !! i = Some header →
     ∃ pre per d,
       split_text_from_file spec soup = Some (pre ++ per)
       ∧ Forall (λ d, metadata d = ∅) pre
       ∧ per !! i = Some d
       ∧ page_content d
         = Str.join " "
             (tag_texts
                (before_header (headers_to_split_on spec)
                   (next_siblings header))))
  ∧ (∀ spec header header',
       same_tags (next_siblings header) (next_siblings header') →
       current_content spec header = current_content spec header')
  ∧ (∀ spec soup soup',
       Forall2 alike soup soup' →
       all_headers spec soup ≠ [] →
       split_text_from_file spec soup = split_text_from_file spec soup').
Proof.
  split; [|split].
  - intros spec soup i header Hi.
    destruct (all_headers spec soup) as [|first others] eqn:Hall; [done|].
    destruct (split_with_headers spec soup _ _ Hall) as (per & Hout & Hper).
    rewrite Hall in Hper.
    destruct (Forall2_lookup_l _ _ _ _ _ Hper Hi)
      as (d & Hd & n & label & _ & _ & _ & Hc).
    exists (pre_header_chunk first), per, d.
    repeat split; [done|apply pre_header_chunk_empty_metadata|done..].
  - intros spec header header' Hs.
    unfold current_content, find_next_siblings. by rewrite Hs.
  - intros spec soup soup'. apply split_top_level_strings.
Qed.

(** The statement above at [<h1>A</h1>bare<h2>B</h2>] and
    [<h1>A</h1>other<h2>B</h2>]. *)
Lemma C9_bare_text_siblings_witness :
  split_text_from_file HEADERS_TO_SPLIT_ON (Samples.bare_top_level "bare")
  = split_text_from_file HEADERS_TO_SPLIT_ON (Samples.bare_top_level "other").
Proof.
  refine (proj2 (proj2 C9_bare_text_siblings) HEADERS_TO_SPLIT_ON
            (Samples.bare_top_level "bare") (Samples.bare_top_level "other")
            _ _).
  - constructor; [by left|].
    constructor; [right; by split|].
    constructor; [by left | constructor].
  - vm_compute. discriminate.
Defined.

(** C9, as stated, fails.  In [<body><h1>A</h1>bare<h2>B</h2></body>] the
    string [bare] lies directly between the header [A] and the next header
    [B], in no element of its own; it is not in the chunk of [A], but it is
    in the pre-header chunk, which takes the whole text of the [body] tag.
    In [<h1>A</h1><div><h2>B</h2>bare<h3>C</h3></div>] the string [bare]
    lies directly between the headers [B] and [C]; it is in the chunk of
    [A], whose sibling [div] contains it. *)
Lemma C9_counterexample :
  (all_headers HEADERS_TO_SPLIT_ON Samples.bare_between
   = [Samples.bare_between_h1; Samples.bare_between_h2]
   ∧ next_siblings Samples.bare_between_h1
     = [NavigableString "bare"; Tag "h2" [NavigableString "B"]]
   ∧ split_text_from_file HEADERS_TO_SPLIT_ON Samples.bare_between
     = Some [mkDocument "A bare B" ∅;
             mkDocument "" {[ "Header 1" := "A" ]};
             mkDocument "" {[ "Header 2" := "B" ]}]
   ∧ Str.contains "bare" "A bare B" = true)
  ∧ (all_headers HEADERS_TO_SPLIT_ON Samples.nested_bare
     = [Samples.nested_bare_h1; Samples.nested_bare_h2;
        Samples.nested_bare_h3]
     ∧ next_siblings Samples.nested_bare_h2
       = [NavigableString "bare"; Tag "h3" [NavigableString "C"]]
     ∧ split_text_from_file HEADERS_TO_SPLIT_ON Samples.nested_bare
       = Some [mkDocument "B bare C" {[ "Header 1" := "A" ]};
               mkDocument "" {[ "Header 2" := "B" ]};
               mkDocument "" {[ "Header 3" := "C" ]}]
     ∧ Str.contains "bare" "B bare C" = true).
Proof. by vm_compute. Qed.

(** C7.  A call of the splitter reads the tree and the list that the
    module-level name is bound to, and writes only to objects that it
    creates: from any store, it returns a new list that holds the chunks
    computed from the tree and the specification alone, and every object
    that existed before the call is as it was.  So two calls on the same
    tree, one after the other, return two lists with the same chunks, in
    the same order, and the second call leaves the chunks of the first as
    they are. *)
Theorem C7_deterministic (spec : list (string * string))
    (soup : BeautifulSoup) (constant : Store.addr) (h : Store.store) :
  spec ≠ [] →
  h !! constant = Some (Store.tuples spec) →
  ∃ out documents1 h1 documents2 h2,
    split_text_from_file spec soup = Some out
    ∧ Stateful.split_text_from_file constant soup h = (inr documents1, h1)
    ∧ Stateful.split_text_from_file constant soup h1 = (inr documents2, h2)
    ∧ Store.intact h h1
    ∧ Store.intact h1 h2
    ∧ h !! documents1 = None
    ∧ h1 !! documents2 = None
    ∧ Store.documents_at h1 documents1 = Some out
    ∧ Store.documents_at h2 documents1 = Some out
    ∧ Store.documents_at h2 documents2 = Some out.
Proof.
  intros _ Hc.
  destruct (split_text_from_file_is_Some spec soup) as [out Hout].
  destruct (StoreFacts.split_text_from_file_run spec soup constant h Hc)
    as (r1 & h1 & Hrun1 & Hh1 & Hres1).
  destruct (StoreFacts.split_text_from_file_run spec soup constant h1
              (Hh1 _ _ Hc))
    as (r2 & h2 & Hrun2 & Hh2 & Hres2).
  rewrite Hout in Hres1, Hres2.
  destruct Hres1 as [-> Hdocs1], Hres2 as [-> Hdocs2].
  exists out, (length h + 2), h1, (length h1 + 2), h2.
  repeat split; [done..| | | | |done].
  - apply lookup_ge_None_2. lia.
  - apply lookup_ge_None_2. lia.
  - done.
  - by eapply StoreFacts.documents_at_intact.
Qed.

(** The statement above at [<p>intro</p><h1>A</h1><p>body</p>], in a store
    that holds nothing but the constant of the module. *)
Lemma C7_deterministic_witness :
  ∃ out documents1 h1 documents2 h2,
    split_text_from_file HEADERS_TO_SPLIT_ON Samples.intro_doc = Some out
    ∧ Stateful.split_text_from_file 0 Samples.intro_doc
        [Store.tuples HEADERS_TO_SPLIT_ON]
      = (inr documents1, h1)
    ∧ Stateful.split_text_from_file 0 Samples.intro_doc h1
      = (inr documents2, h2)
    ∧ Store.intact [Store.tuples HEADERS_TO_SPLIT_ON] h1
    ∧ Store.intact h1 h2
    ∧ [Store.tuples HEADERS_TO_SPLIT_ON] !! documents1 = None
    ∧ h1 !! documents2 = None
    ∧ Store.documents_at h1 documents1 = Some out
    ∧ Store.documents_at h2 documents1 = Some out
    ∧ Store.documents_at h2 documents2 = Some out.
Proof.
  exact (C7_deterministic HEADERS_TO_SPLIT_ON Samples.intro_doc 0
           [Store.tuples HEADERS_TO_SPLIT_ON] ltac:(discriminate) eq_refl).
Defined.

(** C10 (amended).  When the calls that [split_html] makes raise instances
    of [Exception] only, [split_html] returns: after a run of its body
    without exception with the state of that run, and after an exception
    with one more record of level [ERROR], [File not found: ...] for a
    [FileNotFoundError] and [An error occurred: ...] for any other. *)
Theorem C10_split_html_returns {World : Type} (env : Pipeline.Env World)
    (file_path output_pkl output_txt : string) (interactive : bool)
    (target_tag target_class : option string) (drop_empty_metadata : bool)
    (st : Pipeline.state World) :
  Pipeline.tame_env env →
  Pipeline.split_html env file_path output_pkl output_txt interactive
    target_tag target_class drop_empty_metadata st
  = match Pipeline.split_html_body env file_path output_pkl output_txt
            interactive target_tag target_class drop_empty_metadata st with
    | (inr _, st') => (inr tt, st')
    | (inl e, st') =>
        (inr tt,
         Pipeline.mkState (Pipeline.world st')
           (Pipeline.logged st' ++ [Pipeline.error_record file_path e]))
    end.
Proof.
  intros Henv.
  pose proof (PipelineFacts.tame_split_html_body env Henv file_path
                output_pkl output_txt interactive target_tag target_class
                drop_empty_metadata st) as Htame.
  unfold Pipeline.split_html, Pipeline.try_except.
  destruct (Pipeline.split_html_body _ _ _ _ _ _ _ _ st) as [[e|[]] st'];
    [|done].
  destruct e as [msg|msg|msg]; [done..|].
  by specialize (Htame _ eq_refl).
Qed.

(** The statement above in a world without files. *)
Lemma C10_split_html_returns_witness :
  Pipeline.split_html Pipeline.no_files "missing.html" "out.pkl" "out.txt"
    false None None true (Pipeline.mkState tt [])
  = (inr tt,
     Pipeline.mkState tt
       [(Pipeline.ERROR, "File not found: missing.html")]).
Proof.
  refine (C10_split_html_returns Pipeline.no_files "missing.html" "out.pkl"
            "out.txt" false None None true (Pipeline.mkState tt []) _).
  repeat split; intros; intros w e; simpl; intros [= <-]; done.
Defined.

(** C10, as stated, fails: what is only a [BaseException] is caught by
    neither handler.  When the user interrupts the interactive question
    about the chunk of [<h1>A</h1>], [split_html] does not return: the
    [KeyboardInterrupt] reaches its caller, and no record of level [ERROR]
    is logged. *)
Lemma C10_counterexample :
  Pipeline.split_html Pipeline.interrupted "doc.html" "out.pkl" "out.txt"
    true None None true (Pipeline.mkState tt [])
  = (inl (Pipeline.BaseException "KeyboardInterrupt"),
     Pipeline.mkState tt
       [(Pipeline.INFO,
         "No specific target specified; processing full HTML content.")]).
Proof. by vm_compute. Qed.

(** * Further properties of the code *)

(** ** Substrings *)

Section ContainsFacts.
Import StrFacts.

Lemma prefix_append (t b : string) : String.prefix t (t +:+ b) = true.
Proof.
  induction t as [|c t IH]; simpl; [by destruct b|].
  by destruct (ascii_dec c c).
Qed.

Lemma contains_unfold (t s : string) :
  Str.contains t s
  = String.prefix t s
    || match s with
       | EmptyString => false
       | String _ s' => Str.contains t s'
       end.
Proof. by destruct s. Qed.

Lemma contains_here (t b : string) : Str.contains t (t +:+ b) = true.
Proof. by rewrite contains_unfold, prefix_append. Qed.

Lemma contains_append_r (t a b : string) :
  Str.contains t b = true → Str.contains t (a +:+ b) = true.
Proof.
  intros Hb. induction a as [|c a IH]; [done|].
  rewrite contains_unfold. simpl. rewrite IH. apply orb_true_r.
Qed.

Lemma contains_join (t : string) (l : list string) :
  t ∈ l → Str.contains t (Str.join " " l) = true.
Proof.
  induction l as [|s l IH]; intros Ht; [by apply elem_of_nil in Ht|].
  destruct l as [|s' l].
  - apply list_elem_of_singleton in Ht as ->. simpl.
    rewrite <- (append_nil_r s) at 2. apply contains_here.
  - change (Str.join " " (s :: s' :: l))
      with (s +:+ " " +:+ Str.join " " (s' :: l)).
    apply elem_of_cons in Ht as [->|Ht]; [apply contains_here|].
    by apply contains_append_r, contains_append_r, IH.
Qed.

End ContainsFacts.

(** ** Parents of the elements of a subtree *)

Section ParentFacts.

Lemma locate_children_parents (qs cs : list PageElement) :
  Forall (λ c, ∀ ps prev sibs,
            qs ⊆ ps →
            Forall (λ el, qs ⊆ parents el) (locate ps c prev sibs)) cs →
  ∀ ps prev, qs ⊆ ps →
    Forall (λ el, qs ⊆ parents el) (locate_children (locate ps) cs prev).
Proof.
  induction 1 as [|c cs Hc _ IH]; intros ps prev Hps; simpl; [done|].
  apply Forall_app. split; [by apply Hc | by apply IH].
Qed.

Lemma locate_parents (qs : list PageElement) (e : PageElement)
    (ps prev sibs : list PageElement) :
  qs ⊆ ps → Forall (λ el, qs ⊆ parents el) (locate ps e prev sibs).
Proof.
  revert ps prev sibs.
  induction e as [n cs IH|s|s|k s] using PageElement_nested_ind;
    intros ps prev sibs Hps; simpl; [|by repeat constructor..].
  constructor; [done|].
  apply locate_children_parents; [done|].
  intros x Hx. right. by apply Hps.
Qed.

Lemma descendants_parents (el : Element) :
  Forall (λ d, node el ∈ parents d) (descendants el).
Proof.
  unfold descendants. destruct (node el) as [n cs|s|s|k s] eqn:Hn;
    [|constructor..].
  eapply Forall_impl.
  - apply (locate_children_parents [Tag n cs]).
    + apply Forall_forall. intros c _ ps prev sibs. apply locate_parents.
    + intros x Hx. apply list_elem_of_singleton in Hx as ->. by left.
  - intros d Hd. apply Hd. by left.
Qed.

End ParentFacts.

(** ** The splitter *)

Section MappingFacts.

Lemma dict_lookup_absent (pairs : list (string * string))
    (m : gmap string string) (k : string) :
  k ∉ map fst pairs →
  fold_left (λ m kv, <[kv.1 := kv.2]> m) pairs m !! k = m !! k.
Proof.
  revert m. induction pairs as [|[k' v'] pairs IH]; intros m Hk; simpl;
    [done|].
  rewrite IH by (intros Hin; apply Hk; by right).
  apply lookup_insert_ne. intros ->. apply Hk. by left.
Qed.

Lemma dict_lookup_present (pairs : list (string * string))
    (m : gmap string string) (k v : string) :
  NoDup (map fst pairs) → (k, v) ∈ pairs →
  fold_left (λ m kv, <[kv.1 := kv.2]> m) pairs m !! k = Some v.
Proof.
  revert m. induction pairs as [|[k' v'] pairs IH]; intros m Hnd Hin.
  - by apply elem_of_nil in Hin.
  - simpl in Hnd. apply NoDup_cons in Hnd as [Hk' Hnd]. simpl.
    apply elem_of_cons in Hin as [[= -> ->]|Hin]; [|by apply IH].
    rewrite dict_lookup_absent by done. apply lookup_insert_eq.
Qed.

Lemma dict_snoc (pairs : list (string * string)) (k v : string) :
  dict (pairs ++ [(k, v)]) = <[k := v]> (dict pairs).
Proof. unfold dict. by rewrite fold_left_app. Qed.

Lemma header_mapping_last (spec : list (string * string)) (k : string) :
  header_mapping spec !! k = snd <$> last (filter (λ kv, kv.1 = k) spec).
Proof.
  unfold header_mapping.
  induction spec as [|[k' v'] spec IH] using rev_ind; [done|].
  rewrite dict_snoc, filter_app, filter_cons, filter_nil. simpl.
  case_decide as Hk.
  - subst k'. rewrite last_snoc. apply lookup_insert_eq.
  - rewrite app_nil_r, lookup_insert_ne by done. apply IH.
Qed.

End MappingFacts.

(** X1.  With a specification that is not empty, as the constant of the
    module is, the lookup [header_mapping[header_name]] never raises: every
    header that is found has a label, one iteration of the loop over the
    headers always produces its chunk, and the splitter returns. *)
Theorem X1_no_key_error (spec : list (string * string))
    (soup : BeautifulSoup) :
  spec ≠ [] →
  (∀ header, header ∈ all_headers spec soup →
     ∃ header_name,
       name_of (node header) = Some header_name
       ∧ is_Some (header_mapping spec !! header_name)
       ∧ is_Some (header_document spec header))
  ∧ is_Some (split_text_from_file spec soup).
Proof.
  intros _. split.
  - intros header Hin.
    pose proof (find_all_headers spec (body_descendants soup)) as Hall.
    rewrite Forall_forall in Hall. destruct (Hall header Hin) as (n & Hn & Hs).
    exists n. split; [done|]. split; [by apply header_mapping_lookup|].
    destruct (header_document_chunk spec header n Hn Hs) as (d & -> & _).
    by eexists.
  - destruct (all_headers spec soup) as [|first others] eqn:Hall.
    + rewrite split_without_headers by done. by eexists.
    + destruct (split_with_headers spec soup _ _ Hall) as (per & -> & _).
      by eexists.
Qed.

(** The statement above at the level 3 header of
    [<h1>A</h1><p>x</p><h3>C</h3><p>y</p><h2>B</h2>]. *)
Lemma X1_no_key_error_witness :
  ∃ header_name,
    name_of (Tag "h3" [NavigableString "C"]) = Some header_name
    ∧ is_Some (header_mapping HEADERS_TO_SPLIT_ON !! header_name)
    ∧ is_Some
        (header_document HEADERS_TO_SPLIT_ON
           (mkElement (Tag "h3" [NavigableString "C"]) []
              [NavigableString "x"; Tag "p" [NavigableString "x"];
               NavigableString "A"; Tag "h1" [NavigableString "A"]]
              [Tag "p" [NavigableString "y"];
               Tag "h2" [NavigableString "B"]])).
Proof.
  refine (proj1 (X1_no_key_error HEADERS_TO_SPLIT_ON Samples.mixed_levels
                   ltac:(discriminate))
            (mkElement (Tag "h3" [NavigableString "C"]) []
               [NavigableString "x"; Tag "p" [NavigableString "x"];
                NavigableString "A"; Tag "h1" [NavigableString "A"]]
               [Tag "p" [NavigableString "y"];
                Tag "h2" [NavigableString "B"]]) _).
  vm_compute. right. left.
Defined.

(** X2.  Every chunk of the output is well formed: its text has no white
    space at either end, its metadata has at most one entry, and a chunk
    without metadata has a text that is not empty. *)
Theorem X2_chunks_well_formed (spec : list (string * string))
    (soup : BeautifulSoup) (out : list Document) :
  split_text_from_file spec soup = Some out →
  Forall well_formed_chunk out.
Proof.
  intros Hout.
  destruct (all_headers spec soup) as [|first others] eqn:Hall.
  - rewrite split_without_headers in Hout by done. injection Hout as <-.
    destruct (Str.truthy (get_text (body_node soup))) eqn:Ht;
      [|constructor].
    constructor; [|constructor]. split; [|split]; simpl.
    + apply strip_get_text.
    + rewrite map_size_empty. lia.
    + intros _ Heq. by rewrite Heq in Ht.
  - destruct (split_with_headers spec soup _ _ Hall) as (per & Hsplit & Hper).
    rewrite Hsplit in Hout. injection Hout as <-.
    apply Forall_app. split.
    + unfold pre_header_chunk.
      destruct (pre_header_texts first) as [|t ts] eqn:Hts; [constructor|].
      assert (Hsolid : solid (Str.join " " (t :: ts))).
      { apply StrFacts.join_solid; [|done].
        rewrite <- Hts. apply tag_texts_solid. }
      destruct Hsolid as [Hclean Htruthy].
      constructor; [|constructor].
      split; [|split]; cbn [page_content metadata].
      * by apply StrFacts.clean_strip.
      * rewrite map_size_empty. lia.
      * intros _ Heq. by rewrite Heq in Htruthy.
    + clear Hsplit Hall. induction Hper as [|h d hs per Hd _ IH];
        constructor; [|done].
      destruct (chunk_of_metadata spec h d Hd) as [Hsize Hne].
      destruct Hd as (n & label & _ & _ & _ & Hc).
      repeat split; [|lia|done].
      rewrite Hc. apply StrFacts.clean_strip, StrFacts.join_clean,
        tag_texts_solid.
Qed.

(** The statement above at
    [<body><p>intro</p><h1>A</h1><p>body</p></body>]. *)
Lemma X2_chunks_well_formed_witness :
  Forall well_formed_chunk
    [mkDocument "intro A body intro" ∅;
     mkDocument "body" {[ "Header 1" := "A" ]}].
Proof.
  exact (X2_chunks_well_formed HEADERS_TO_SPLIT_ON Samples.intro_in_body
           _ eq_refl).
Defined.

(** X3.  The mapping from tags to labels is read off the specification
    from its end: the label of a tag is the label of the last pair that
    lists the tag, and a tag that is not listed has none.  So the chunk of
    a header carries, as the key of its metadata, the label of the last
    pair of the specification that lists the header's tag. *)
Theorem X3_header_mapping :
  (∀ spec k,
     header_mapping spec !! k
     = snd <$> last (filter (λ kv, kv.1 = k) spec))
  ∧ (∀ spec soup i header header_name,
       all_headers spec soup !! i = Some header →
       name_of (node header) = Some header_name →
       ∃ pre per label,
         split_text_from_file spec soup = Some (pre ++ per)
         ∧ Forall (λ d, metadata d = ∅) pre
         ∧ last (filter (λ kv, kv.1 = header_name) spec)
           = Some (header_name, label)
         ∧ metadata <$> per !! i
           = Some {[ label := get_text (node header) ]}).
Proof.
  split.
  - apply header_mapping_last.
  - intros spec soup i header header_name Hi Hname.
    destruct (all_headers spec soup) as [|first others] eqn:Hall; [done|].
    destruct (split_with_headers spec soup _ _ Hall) as (per & Hout & Hper).
    rewrite Hall in Hper.
    destruct (Forall2_lookup_l _ _ _ _ _ Hper Hi)
      as (d & Hd & n & label & Hn & Hl & Hm & _).
    rewrite Hname in Hn. injection Hn as <-.
    exists (pre_header_chunk first), per, label.
    split; [done|]. split; [apply pre_header_chunk_empty_metadata|].
    split; [|by rewrite Hd; simpl; rewrite Hm].
    rewrite header_mapping_last in Hl.
    destruct (last (filter (λ kv, kv.1 = header_name) spec))
      as [[k v]|] eqn:Hlast; [|done].
    injection Hl as ->.
    apply last_Some_elem_of, list_elem_of_filter in Hlast as [Hk _].
    simpl in Hk. by subst k.
Qed.

(** The statement above at the first header of
    [<h1>A</h1><p>x</p><h3>C</h3><p>y</p><h2>B</h2>], with a specification
    that lists [h1] twice. *)
Lemma X3_header_mapping_witness :
  ∃ pre per label,
    split_text_from_file [("h1", "X"); ("h1", "Y"); ("h2", "B")]
      Samples.mixed_levels
    = Some (pre ++ per)
    ∧ Forall (λ d, metadata d = ∅) pre
    ∧ last (filter (λ kv, kv.1 = "h1") [("h1", "X"); ("h1", "Y"); ("h2", "B")])
      = Some ("h1", label)
    ∧ metadata <$> per !! 0
      = Some {[ label := get_text (node Samples.mixed_levels_h1) ]}.
Proof.
  exact (proj2 X3_header_mapping [("h1", "X"); ("h1", "Y"); ("h2", "B")]
           Samples.mixed_levels 0 Samples.mixed_levels_h1 "h1"
           eq_refl eq_refl).
Defined.

(** X4.  When the document has a [body] tag, every header that is found
    lies inside it, so the backward walk from the first header visits the
    [body] tag itself: if the body has any text, the output starts with a
    chunk without metadata that contains the whole text of the body. *)
Theorem X4_body_text_in_pre_header (spec : list (string * string))
    (soup : BeautifulSoup) (body first_header : Element)
    (others : list Element) :
  soup_body soup = Some body →
  all_headers spec soup = first_header :: others →
  Forall (λ header, node body ∈ parents header) (all_headers spec soup)
  ∧ node body ∈ find_all_previous first_header
  ∧ (Str.truthy (get_text (node body)) = true →
     ∃ d rest,
       split_text_from_file spec soup = Some (d :: rest)
       ∧ metadata d = ∅
       ∧ Str.contains (get_text (node body)) (page_content d) = true).
Proof.
  intros Hbody Hall.
  assert (Hin : Forall (λ header, node body ∈ parents header)
                  (all_headers spec soup)).
  { unfold all_headers, body_descendants. rewrite Hbody.
    apply Forall_forall. intros h Hh.
    apply list_elem_of_filter in Hh as [_ Hh].
    pose proof (descendants_parents body) as Hd.
    rewrite Forall_forall in Hd. by apply Hd. }
  split; [done|].
  pose proof Hin as Hfirst. rewrite Hall in Hfirst.
  apply Forall_cons in Hfirst as [Hfirst _].
  pose proof (all_headers_linked spec soup) as Hlinked.
  rewrite Hall in Hlinked. apply Forall_cons in Hlinked as [Hlinked _].
  unfold well_linked, linked in Hlinked. rewrite Forall_forall in Hlinked.
  destruct (Hlinked _ Hfirst) as [Htag Hprev].
  split; [by apply list_elem_of_filter|].
  intros Ht.
  assert (Htext : get_text (node body) ∈ pre_header_texts first_header).
  { unfold pre_header_texts, tag_texts.
    apply list_elem_of_filter. split; [done|].
    apply list_elem_of_fmap. exists (node body). split; [done|].
    rewrite filter_reverse. apply elem_of_reverse.
    by apply list_elem_of_filter. }
  destruct (split_with_headers spec soup _ _ Hall) as (per & Hsplit & _).
  unfold pre_header_chunk in Hsplit.
  destruct (pre_header_texts first_header) as [|t ts] eqn:Hts;
    [by apply elem_of_nil in Htext|].
  exists (mkDocument (Str.join " " (t :: ts)) ∅), per.
  split; [apply Hsplit|]. split; [done|].
  cbn [page_content]. by apply contains_join.
Qed.

(** The statement above at [<body><h1>A</h1>bare</body>]. *)
Lemma X4_body_text_in_pre_header_witness :
  ∃ d rest,
    split_text_from_file HEADERS_TO_SPLIT_ON Samples.bare_after_header
    = Some (d :: rest)
    ∧ metadata d = ∅
    ∧ Str.contains "A bare" (page_content d) = true.
Proof.
  refine (proj2 (proj2 (X4_body_text_in_pre_header HEADERS_TO_SPLIT_ON
                          Samples.bare_after_header
                          (mkElement
                             (Tag "body"
                                [Tag "h1" [NavigableString "A"];
                                 NavigableString "bare"]) [] [] [])
                          Samples.bare_after_header_h1 []
                          eq_refl eq_refl)) eq_refl).
Defined.

(** ** The pipeline, step by step *)

Module PipelineRuns.
Import Pipeline Worlds.

Section Runs.
Context {World : Type}.
Variable env : Env World.

Lemma bind_run {A B} (m : M A) (k : A → M B) (st : state World) :
  (m ≫= k) st
  = match m st with
    | (inl e, st') => (inl e, st')
    | (inr a, st') => k a st'
    end.
Proof. done. Qed.

Lemma lift_run {A} (f : op A) (st : state World) (r : exn + A) (w : World) :
  f (world st) = (r, w) → lift f st = (r, mkState w (logged st)).
Proof. intros Hf. unfold lift. by rewrite Hf. Qed.

Lemma lift_run_at {A} (f : op A) (w : World) (l : list (level * string))
    (r : exn + A) (w' : World) :
  f w = (r, w') → lift f (mkState w l) = (r, mkState w' l).
Proof. intros Hf. unfold lift. simpl. by rewrite Hf. Qed.

Lemma lift_returns {A} (f : op A) (st : state World) (a : A) :
  (f (world st)).1 = inr a →
  lift f st = (inr a, mkState (f (world st)).2 (logged st)).
Proof.
  unfold lift. destruct (f (world st)) as [r w]. simpl. by intros ->.
Qed.

Lemma state_eta (st : state World) : mkState (world st) (logged st) = st.
Proof. by destruct st. Qed.

(** The loop over the splits, without interaction. *)
Lemma select_splits_keep_all (splits acc : list Document) (st : state World) :
  select_splits env false false splits acc st = (inr (acc ++ splits), st).
Proof.
  revert acc. induction splits as [|d splits IH]; intros acc; simpl.
  - by rewrite app_nil_r.
  - rewrite bind_run. unfold mret, M_ret. rewrite IH.
    by rewrite <- app_assoc.
Qed.

Lemma select_splits_drop (splits acc : list Document) (st : state World) :
  select_splits env true false splits acc st
  = (inr (acc ++ filter (λ d, metadata d ≠ ∅) splits),
     mkState (world st)
       (logged st
        ++ map dropping_record (filter (λ d, metadata d = ∅) splits))).
Proof.
  revert acc st. induction splits as [|d splits IH]; intros acc st; simpl.
  - by rewrite !app_nil_r, state_eta.
  - rewrite !filter_cons. destruct (decide (metadata d = ∅)) as [Hd|Hd].
    + rewrite bool_decide_eq_true_2 by done.
      rewrite decide_False by (by intros Hn).
      rewrite bind_run. unfold logger at 1. rewrite IH. simpl.
      by rewrite <- app_assoc.
    + rewrite bool_decide_eq_false_2 by done.
      rewrite decide_True by done.
      rewrite bind_run. unfold mret, M_ret. rewrite IH.
      by rewrite <- app_assoc.
Qed.

(** The question about one split. *)
Lemma lower_is_d (s : string) :
  String.eqb (Str.lower s) "d" = bool_decide (s = "d" ∨ s = "D").
Proof.
  destruct s as [|c s].
  - symmetry. apply bool_decide_eq_false. by intros [|].
  - destruct s as [|c' s].
    + destruct c as [[] [] [] [] [] [] [] []]; vm_compute; try reflexivity.
    + simpl. symmetry. rewrite bool_decide_eq_false_2 by (by intros [|]).
      symmetry. by destruct (Ascii.eqb _ _).
Qed.

(** The three ways through [preprocess_html]. *)
Lemma preprocess_html_plain (html : string)
    (target_tag target_class : option string) (st : state World)
    (soup : BeautifulSoup) (w : World) :
  parse env html (world st) = (inr soup, w) →
  truthy_opt target_tag && truthy_opt target_class = false →
  preprocess_html env html target_tag target_class st
  = (inr html,
     mkState w
       (logged st
        ++ [(INFO,
             "No specific target specified; processing full HTML content.")])).
Proof.
  intros Hparse Hnone. unfold preprocess_html.
  rewrite bind_run, (lift_run _ _ _ _ Hparse). cbv beta iota.
  by rewrite Hnone.
Qed.

Lemma preprocess_html_found (html tag cls section : string)
    (st : state World) (soup : BeautifulSoup) (w w' : World) :
  parse env html (world st) = (inr soup, w) →
  find_section env html tag cls w = (inr (Some section), w') →
  Str.truthy tag = true → Str.truthy cls = true →
  preprocess_html env html (Some tag) (Some cls) st
  = (inr section,
     mkState w'
       (logged st
        ++ [(INFO,
             "Filtering content within <" +:+ tag +:+ " class='" +:+ cls
             +:+ "'>")])).
Proof.
  intros Hparse Hfind Htag Hcls. unfold preprocess_html.
  rewrite bind_run, (lift_run _ _ _ _ Hparse). cbv beta iota.
  unfold truthy_opt. rewrite Htag, Hcls.
  cbv beta iota delta [andb default].
  rewrite bind_run. unfold logger at 1. cbv beta iota.
  cbn [world logged].
  by rewrite bind_run, (lift_run_at _ _ _ _ _ Hfind).
Qed.

Lemma preprocess_html_not_found (html tag cls : string)
    (st : state World) (soup : BeautifulSoup) (w w' : World) :
  parse env html (world st) = (inr soup, w) →
  find_section env html tag cls w = (inr None, w') →
  Str.truthy tag = true → Str.truthy cls = true →
  preprocess_html env html (Some tag) (Some cls) st
  = (inr "",
     mkState w'
       (logged st
        ++ [(INFO,
             "Filtering content within <" +:+ tag +:+ " class='" +:+ cls
             +:+ "'>");
            (WARNING,
             "No matching <" +:+ tag +:+ " class='" +:+ cls
             +:+ "'> found in the HTML.")])).
Proof.
  intros Hparse Hfind Htag Hcls. unfold preprocess_html.
  rewrite bind_run, (lift_run _ _ _ _ Hparse). cbv beta iota.
  unfold truthy_opt. rewrite Htag, Hcls.
  cbv beta iota delta [andb default].
  rewrite bind_run. unfold logger at 1. cbv beta iota.
  cbn [world logged].
  rewrite bind_run, (lift_run_at _ _ _ _ _ Hfind). cbv beta iota.
  rewrite bind_run. unfold logger at 1. cbv beta iota.
  unfold mret, M_ret. cbn [world logged]. by rewrite <- app_assoc.
Qed.

End Runs.
End PipelineRuns.

Module PipelineLogs.
Import Pipeline Worlds PipelineRuns.

Section Logs.
Context {World : Type}.
Variable env : Env World.

Lemma log_free_ret {A} (a : A) : log_free (World := World) (mret a).
Proof. intros w l. unfold mret, M_ret. simpl. by rewrite app_nil_r. Qed.

Lemma log_free_raise {A} (e : exn) : log_free (World := World) (A := A) (raise e).
Proof. intros w l. unfold raise. simpl. by rewrite app_nil_r. Qed.

Lemma log_free_logger (lv : level) (msg : string) :
  log_free (World := World) (logger lv msg).
Proof. by intros w l. Qed.

Lemma log_free_lift {A} (f : op A) : log_free (World := World) (lift f).
Proof.
  intros w l. unfold lift. simpl. destruct (f w) as [r w']. simpl.
  by rewrite app_nil_r.
Qed.

Lemma log_free_bind {A B} (m : M A) (k : A → M B) :
  log_free (World := World) m → (∀ a, log_free (k a)) → log_free (m ≫= k).
Proof.
  intros Hm Hk w l. rewrite !bind_run, (Hm w l).
  destruct (m (mkState w [])) as [[e|a] [w' l']]; simpl; [done|].
  rewrite (Hk a w' (l ++ l')), (Hk a w' l'). simpl.
  by rewrite app_assoc.
Qed.

Lemma log_free_if {A} (b : bool) (m1 m2 : M A) :
  log_free (World := World) m1 → log_free m2 →
  log_free (if b then m1 else m2).
Proof. by destruct b. Qed.

Lemma log_free_split_text_from_file_path (file : string) :
  log_free (split_text_from_file_path env file).
Proof.
  unfold split_text_from_file_path.
  apply log_free_bind; [apply log_free_lift|]. intros html_content.
  apply log_free_bind; [apply log_free_lift|]. intros soup.
  destruct (split_text_from_file HEADERS_TO_SPLIT_ON soup);
    [apply log_free_ret | apply log_free_raise].
Qed.

Lemma log_free_review (split : Document) : log_free (review env split).
Proof.
  unfold review.
  repeat (apply log_free_bind; [apply log_free_lift|]; intros ?).
  apply log_free_ret.
Qed.

Lemma log_free_select_splits (drop_empty_metadata interactive : bool)
    (html_header_splits all_html_header_splits : list Document) :
  log_free (select_splits env drop_empty_metadata interactive
              html_header_splits all_html_header_splits).
Proof.
  revert all_html_header_splits.
  induction html_header_splits as [|split rest IH];
    intros all_html_header_splits; simpl; [apply log_free_ret|].
  apply log_free_if.
  - apply log_free_bind; [apply log_free_logger|]. intros _. apply IH.
  - apply log_free_bind.
    + apply log_free_if; [apply log_free_review | apply log_free_ret].
    + intros keep. apply IH.
Qed.

(** What [split_html] does once the preprocessed text is known not to be
    blank; the preprocessed text itself is not used. *)
Lemma log_free_split_and_save (file_path output_pkl output_txt : string)
    (interactive drop_empty_metadata : bool) :
  log_free
    (html_header_splits ← split_text_from_file_path env file_path;
     all_html_header_splits ←
       select_splits env drop_empty_metadata interactive
         html_header_splits [];
     lift (pickle_dump env all_html_header_splits output_pkl);;
     logger INFO ("Serialized splits saved to " +:+ output_pkl);;
     lift (write_text env output_txt (render env all_html_header_splits));;
     logger INFO ("Split contents saved to " +:+ output_txt);;
     logger INFO
       ("Number of header splits: "
        +:+ pretty (length all_html_header_splits))).
Proof.
  apply log_free_bind; [apply log_free_split_text_from_file_path|].
  intros html_header_splits.
  apply log_free_bind; [apply log_free_select_splits|].
  intros all_html_header_splits.
  apply log_free_bind; [apply log_free_lift|]. intros _.
  apply log_free_bind; [apply log_free_logger|]. intros _.
  apply log_free_bind; [apply log_free_lift|]. intros _.
  apply log_free_bind; [apply log_free_logger|]. intros _.
  apply log_free_logger.
Qed.

End Logs.
End PipelineLogs.

(** X5.  Without interaction the loop over the splits touches nothing
    outside: it keeps every split when [drop_empty_metadata] is off; when it
    is on it keeps the splits that have metadata, in their order, and
    leaves one record for each split it drops. *)
Theorem X5_select_splits_without_interaction {World : Type}
    (env : Pipeline.Env World) (splits : list Document)
    (st : Pipeline.state World) :
  Pipeline.select_splits env false false splits [] st = (inr splits, st)
  ∧ Pipeline.select_splits env true false splits [] st
    = (inr (filter (λ d, metadata d ≠ ∅) splits),
       Pipeline.mkState (Pipeline.world st)
         (Pipeline.logged st
          ++ map Worlds.dropping_record
               (filter (λ d, metadata d = ∅) splits))).
Proof.
  split.
  - apply PipelineRuns.select_splits_keep_all.
  - apply (PipelineRuns.select_splits_drop env splits []).
Qed.

(** X6.  With [drop_empty_metadata] and without interaction, what
    [split_html] keeps of the output of the splitter is exactly the chunks
    of the headers found, one for each header and in their order: the
    pre-header chunk is dropped, and of a document without headers nothing
    is kept. *)
Theorem X6_kept_splits_are_header_chunks {World : Type}
    (env : Pipeline.Env World) (spec : list (string * string))
    (soup : BeautifulSoup) (out : list Document)
    (st : Pipeline.state World) :
  split_text_from_file spec soup = Some out →
  ∃ kept,
    (Pipeline.select_splits env true false out [] st).1 = inr kept
    ∧ Forall2 (chunk_of spec) (all_headers spec soup) kept.
Proof.
  intros Hout. rewrite (PipelineRuns.select_splits_drop env out []). simpl.
  eexists. split; [done|].
  destruct (all_headers spec soup) as [|first others] eqn:Hall.
  - rewrite split_without_headers in Hout by done. injection Hout as <-.
    destruct (Str.truthy _); [|constructor].
    rewrite filter_cons, decide_False; [constructor|]. by intros Hn.
  - destruct (split_with_headers spec soup _ _ Hall) as (per & Hsplit & Hper).
    rewrite Hsplit in Hout. injection Hout as <-. rewrite Hall in Hper.
    rewrite filter_app, filter_none, filter_all; [done|..].
    + by eapply Forall2_chunk_nonempty.
    + eapply Forall_impl;
        [apply (proj2 (pre_header_chunk_empty_metadata first))|].
      intros d Hd Hn. by apply Hn.
Qed.

(** The statement above at
    [<body><p>intro</p><h1>A</h1><p>body</p></body>]. *)
Lemma X6_kept_splits_are_header_chunks_witness :
  ∃ kept,
    (Pipeline.select_splits Pipeline.no_files true false
       [mkDocument "intro A body intro" ∅;
        mkDocument "body" {[ "Header 1" := "A" ]}] []
       (Pipeline.mkState tt [])).1 = inr kept
    ∧ Forall2 (chunk_of HEADERS_TO_SPLIT_ON)
        (all_headers HEADERS_TO_SPLIT_ON Samples.intro_in_body) kept.
Proof.
  exact (X6_kept_splits_are_header_chunks Pipeline.no_files
           HEADERS_TO_SPLIT_ON Samples.intro_in_body _
           (Pipeline.mkState tt []) eq_refl).
Defined.

(** X7.  In the interactive question a split is disregarded exactly when
    the answer is [d] or [D]; every other answer, the empty one included,
    keeps it. *)
Theorem X7_review_decision {World : Type} (env : Pipeline.Env World)
    (split : Document) (answer : string) (st : Pipeline.state World) :
  (∀ command w, (Pipeline.os_system env command w).1 = inr tt) →
  (∀ text w, (Pipeline.print env text w).1 = inr tt) →
  (∀ m w, (Pipeline.print_metadata env m w).1 = inr tt) →
  (∀ prompt w, (Pipeline.input env prompt w).1 = inr answer) →
  (Pipeline.review env split st).1
  = inr (negb (bool_decide (answer = "d" ∨ answer = "D"))).
Proof.
  intros Hsys Hprint Hmeta Hinput. unfold Pipeline.review.
  rewrite PipelineRuns.bind_run.
  rewrite (PipelineRuns.lift_returns _ _ tt) by apply Hsys.
  rewrite PipelineRuns.bind_run.
  rewrite (PipelineRuns.lift_returns _ _ tt) by apply Hprint.
  rewrite PipelineRuns.bind_run.
  rewrite (PipelineRuns.lift_returns _ _ tt) by apply Hmeta.
  rewrite PipelineRuns.bind_run.
  rewrite (PipelineRuns.lift_returns _ _ tt) by apply Hprint.
  rewrite PipelineRuns.bind_run.
  rewrite (PipelineRuns.lift_returns _ _ answer) by apply Hinput.
  simpl. by rewrite PipelineRuns.lower_is_d.
Qed.

(** The statement above when the user answers [D]. *)
Lemma X7_review_decision_witness :
  (Pipeline.review (Worlds.scripted "" [] None "D")
     (mkDocument "body" {[ "Header 1" := "A" ]})
     (Pipeline.mkState tt [])).1
  = inr false.
Proof.
  exact (X7_review_decision (Worlds.scripted "" [] None "D")
           (mkDocument "body" {[ "Header 1" := "A" ]}) "D"
           (Pipeline.mkState tt [])
           (λ _ _, eq_refl) (λ _ _, eq_refl) (λ _ _, eq_refl)
           (λ _ _, eq_refl)).
Defined.

(** X8.  When the input file cannot be read, [split_html] does nothing
    else: no output is written, the world is as the failed [open] left it,
    and one record of level [ERROR] is added. *)
Theorem X8_unreadable_input {World : Type} (env : Pipeline.Env World)
    (file_path output_pkl output_txt : string) (interactive : bool)
    (target_tag target_class : option string) (drop_empty_metadata : bool)
    (st : Pipeline.state World) (e : Pipeline.exn) (w : World) :
  Pipeline.open_read env file_path (Pipeline.world st) = (inl e, w) →
  Pipeline.is_Exception e = true →
  Pipeline.split_html env file_path output_pkl output_txt interactive
    target_tag target_class drop_empty_metadata st
  = (inr tt,
     Pipeline.mkState w
       (Pipeline.logged st ++ [Pipeline.error_record file_path e])).
Proof.
  intros Hopen He.
  unfold Pipeline.split_html, Pipeline.try_except, Pipeline.split_html_body.
  rewrite PipelineRuns.bind_run, (PipelineRuns.lift_run _ _ _ _ Hopen).
  by destruct e.
Qed.

(** The statement above in a world without files. *)
Lemma X8_unreadable_input_witness :
  Pipeline.split_html Pipeline.no_files "missing.html" "out.pkl" "out.txt"
    true (Some "div") (Some "markdown") true (Pipeline.mkState tt [])
  = (inr tt,
     Pipeline.mkState tt
       [(Pipeline.ERROR, "File not found: missing.html")]).
Proof.
  exact (X8_unreadable_input Pipeline.no_files "missing.html" "out.pkl"
           "out.txt" true (Some "div") (Some "markdown") true
           (Pipeline.mkState tt []) (Pipeline.FileNotFoundError "missing.html")
           tt eq_refl eq_refl).
Defined.

#[local] Existing Instance Pipeline.M_bind.
#[local] Existing Instance Pipeline.M_ret.

(** X9.  When a target tag and class are given and no such section is in
    the file, the file is not split, whatever it contains: after two
    warnings the empty list is pickled and the empty text is written. *)
Theorem X9_target_not_found {World : Type} (env : Pipeline.Env World)
    (file_path output_pkl output_txt : string) (interactive : bool)
    (tag cls : string) (drop_empty_metadata : bool)
    (st : Pipeline.state World) (html : string) (soup : BeautifulSoup)
    (w1 w2 w3 : World) :
  Pipeline.open_read env file_path (Pipeline.world st) = (inr html, w1) →
  Pipeline.parse env html w1 = (inr soup, w2) →
  Pipeline.find_section env html tag cls w2 = (inr None, w3) →
  Str.truthy tag = true → Str.truthy cls = true →
  Pipeline.split_html_body env file_path output_pkl output_txt interactive
    (Some tag) (Some cls) drop_empty_metadata st
  = (Pipeline.lift (Pipeline.pickle_dump env [] output_pkl);;
     Pipeline.lift (Pipeline.write_text env output_txt ""))
      (Pipeline.mkState w3
         (Pipeline.logged st
          ++ [(Pipeline.INFO,
               "Filtering content within <" +:+ tag +:+ " class='"
               +:+ cls +:+ "'>");
              (Pipeline.WARNING,
               "No matching <" +:+ tag +:+ " class='" +:+ cls
               +:+ "'> found in the HTML.");
              (Pipeline.WARNING,
               "Preprocessed HTML is empty. No splits generated.")])).
Proof.
  intros Hopen Hparse Hfind Htag Hcls.
  unfold Pipeline.split_html_body.
  rewrite PipelineRuns.bind_run, (PipelineRuns.lift_run _ _ _ _ Hopen).
  cbv beta iota. rewrite PipelineRuns.bind_run.
  rewrite (PipelineRuns.preprocess_html_not_found env html tag cls _ soup
             w2 w3) by done.
  cbv beta iota.
  change (negb (Str.truthy (Str.strip ""))) with true. cbv beta iota.
  rewrite PipelineRuns.bind_run. unfold Pipeline.logger at 1.
  cbv beta iota. cbn [Pipeline.world Pipeline.logged].
  by rewrite <- app_assoc.
Qed.

(** The statement above when the page has a header but no section
    [div.markdown]. *)
Lemma X9_target_not_found_witness :
  Pipeline.split_html_body
    (Worlds.scripted "<h1>A</h1>" [Tag "h1" [NavigableString "A"]] None "")
    "page.html" "out.pkl" "out.txt" false (Some "div") (Some "markdown")
    true (Pipeline.mkState tt [])
  = (inr tt,
     Pipeline.mkState tt
       [(Pipeline.INFO, "Filtering content within <div class='markdown'>");
        (Pipeline.WARNING,
         "No matching <div class='markdown'> found in the HTML.");
        (Pipeline.WARNING,
         "Preprocessed HTML is empty. No splits generated.")]).
Proof.
  exact (X9_target_not_found
           (Worlds.scripted "<h1>A</h1>" [Tag "h1" [NavigableString "A"]]
              None "")
           "page.html" "out.pkl" "out.txt" false "div" "markdown" true
           (Pipeline.mkState tt []) "<h1>A</h1>"
           [Tag "h1" [NavigableString "A"]] tt tt tt
           eq_refl eq_refl eq_refl eq_refl eq_refl).
Defined.

(** X10.  A target section that is found and not blank does not narrow
    what is split: [split_html] splits the whole file again, so with the
    target it returns or raises what it does without a target, leaves the
    same world, and leaves the same records but for the first one. *)
Theorem X10_target_does_not_narrow {World : Type} (env : Pipeline.Env World)
    (file_path output_pkl output_txt : string) (interactive : bool)
    (tag cls : string) (drop_empty_metadata : bool)
    (st : Pipeline.state World) (html section : string)
    (soup : BeautifulSoup) (w1 w2 : World) :
  Pipeline.open_read env file_path (Pipeline.world st) = (inr html, w1) →
  Pipeline.parse env html w1 = (inr soup, w2) →
  Pipeline.find_section env html tag cls w2 = (inr (Some section), w2) →
  Str.truthy tag = true → Str.truthy cls = true →
  Str.truthy (Str.strip section) = true →
  Str.truthy (Str.strip html) = true →
  ∃ r w records,
    Pipeline.split_html_body env file_path output_pkl output_txt
      interactive (Some tag) (Some cls) drop_empty_metadata st
    = (r,
       Pipeline.mkState w
         (Pipeline.logged st
          ++ (Pipeline.INFO,
              "Filtering content within <" +:+ tag +:+ " class='" +:+ cls
              +:+ "'>") :: records))
    ∧ Pipeline.split_html_body env file_path output_pkl output_txt
        interactive None None drop_empty_metadata st
      = (r,
         Pipeline.mkState w
           (Pipeline.logged st
            ++ (Pipeline.INFO,
                "No specific target specified; processing full HTML content.")
               :: records)).
Proof.
  intros Hopen Hparse Hfind Htag Hcls Hsection Hhtml.
  pose proof (PipelineLogs.log_free_split_and_save env file_path output_pkl
                output_txt interactive drop_empty_metadata) as Hfree.
  unfold Pipeline.split_html_body.
  rewrite !PipelineRuns.bind_run, !(PipelineRuns.lift_run _ _ _ _ Hopen).
  cbv beta iota. rewrite !PipelineRuns.bind_run.
  rewrite (PipelineRuns.preprocess_html_found env html tag cls section _
             soup w2 w2) by done.
  rewrite (PipelineRuns.preprocess_html_plain env html None None _ soup w2)
    by done.
  cbv beta iota. rewrite Hsection, Hhtml. cbv beta iota delta [negb].
  cbn [Pipeline.world Pipeline.logged].
  rewrite (Hfree w2 (Pipeline.logged st ++ [_])).
  rewrite (Hfree w2
             (Pipeline.logged st
              ++ [(_, "No specific target specified; processing full HTML content.")])).
  eexists _, _, _. split; by rewrite <- app_assoc.
Qed.

(** The statement above for a page that is its own target section. *)
Lemma X10_target_does_not_narrow_witness :
  ∃ r w records,
    Pipeline.split_html_body
      (Worlds.scripted "<h1>A</h1>" [Tag "h1" [NavigableString "A"]]
         (Some "<h1>A</h1>") "")
      "page.html" "out.pkl" "out.txt" false (Some "h1") (Some "title")
      true (Pipeline.mkState tt [])
    = (r,
       Pipeline.mkState w
         ([] ++ (Pipeline.INFO, "Filtering content within <h1 class='title'>")
                :: records))
    ∧ Pipeline.split_html_body
        (Worlds.scripted "<h1>A</h1>" [Tag "h1" [NavigableString "A"]]
           (Some "<h1>A</h1>") "")
        "page.html" "out.pkl" "out.txt" false None None
        true (Pipeline.mkState tt [])
      = (r,
         Pipeline.mkState w
           ([] ++ (Pipeline.INFO,
                   "No specific target specified; processing full HTML content.")
                  :: records)).
Proof.
  exact (X10_target_does_not_narrow
           (Worlds.scripted "<h1>A</h1>" [Tag "h1" [NavigableString "A"]]
              (Some "<h1>A</h1>") "")
           "page.html" "out.pkl" "out.txt" false "h1" "title" true
           (Pipeline.mkState tt []) "<h1>A</h1>" "<h1>A</h1>"
           [Tag "h1" [NavigableString "A"]] tt tt
           eq_refl eq_refl eq_refl eq_refl eq_refl eq_refl eq_refl).
Defined.

(** ** Documents with the same tags and the same visible text *)

Section SameTexts.
Variable spec : list (string * string).

Lemma same_texts_strings_of (types : option string_class)
    (l k : list PageElement) :
  same_texts l k →
  concat (map (strings_of types) l) = concat (map (strings_of types) k).
Proof.
  induction 1 as [|n cs cs' l k _ IHcs _ IHl|a b l k _ _ Hab _ IHl
                  |a l k _ Ha _ IHl|b l k _ Hb _ IHl]; simpl.
  - done.
  - by rewrite IHcs, IHl.
  - by rewrite Hab, IHl.
  - by rewrite Ha, IHl.
  - by rewrite Hb, IHl.
Qed.

Lemma same_tag_get_text (a b : PageElement) :
  same_tag a b → get_text a = get_text b.
Proof.
  destruct a as [n cs| | |], b as [n' cs'| | |]; try done.
  intros [<- Hcs]. unfold get_text, all_strings. simpl.
  by rewrite (same_texts_strings_of _ _ _ Hcs).
Qed.

Lemma same_tag_name_of (a b : PageElement) :
  same_tag a b → name_of a = name_of b.
Proof.
  destruct a as [n cs| | |], b as [n' cs'| | |]; try done. by intros [-> _].
Qed.

Lemma same_tag_name_in (sel : list string) (a b : PageElement) :
  same_tag a b → name_in sel a = name_in sel b.
Proof. intros Hab. unfold name_in. by rewrite (same_tag_name_of a b). Qed.

Lemma same_tag_is_Tag (a b : PageElement) :
  same_tag a b → is_Tag a = true ∧ is_Tag b = true.
Proof. by destruct a, b. Qed.

Lemma tags_cons_tag (n : string) (cs l : list PageElement) :
  tags (Tag n cs :: l) = Tag n cs :: tags l.
Proof. unfold tags. by rewrite filter_cons. Qed.

Lemma tags_cons_other (a : PageElement) (l : list PageElement) :
  is_Tag a = false → tags (a :: l) = tags l.
Proof.
  intros Ha. unfold tags. rewrite filter_cons.
  by rewrite decide_False by congruence.
Qed.

Lemma tags_app (l k : list PageElement) : tags (l ++ k) = tags l ++ tags k.
Proof. apply filter_app. Qed.

Lemma preorder_other (a : PageElement) : is_Tag a = false → preorder a = [a].
Proof. by destruct a. Qed.

(** The tags of two such runs correspond, at the top and in document
    order. *)
Lemma same_texts_tags (l k : list PageElement) :
  same_texts l k → Forall2 same_tag (tags l) (tags k).
Proof.
  induction 1 as [|n cs cs' l k Hcs _ _ IHl|a b l k Ha Hb _ _ IHl
                  |a l k Ha _ _ IHl|b l k Hb _ _ IHl].
  - constructor.
  - rewrite !tags_cons_tag. by constructor.
  - by rewrite !tags_cons_other.
  - by rewrite tags_cons_other.
  - by rewrite tags_cons_other.
Qed.

Lemma same_texts_preorder (l k : list PageElement) :
  same_texts l k →
  Forall2 same_tag (tags (concat (map preorder l)))
    (tags (concat (map preorder k))).
Proof.
  induction 1 as [|n cs cs' l k Hcs IHcs _ IHl|a b l k Ha Hb _ _ IHl
                  |a l k Ha _ _ IHl|b l k Hb _ _ IHl]; simpl.
  - constructor.
  - rewrite !tags_cons_tag, !tags_app.
    constructor; [done|]. by apply Forall2_app.
  - rewrite !preorder_other by done. simpl.
    by rewrite !tags_cons_other.
  - rewrite preorder_other by done. simpl. by rewrite tags_cons_other.
  - rewrite preorder_other by done. simpl. by rewrite tags_cons_other.
Qed.

Lemma same_tag_previous (n : string) (cs cs' prev prev' : list PageElement) :
  same_texts cs cs' →
  Forall2 same_tag (tags prev) (tags prev') →
  Forall2 same_tag (tags (reverse (preorder (Tag n cs)) ++ prev))
    (tags (reverse (preorder (Tag n cs')) ++ prev')).
Proof.
  intros Hcs Hprev. rewrite !tags_app. apply Forall2_app; [|done].
  unfold tags. rewrite !filter_reverse. apply Forall2_reverse.
  simpl. fold (tags (Tag n cs :: concat (map preorder cs))).
  fold (tags (Tag n cs' :: concat (map preorder cs'))).
  rewrite !tags_cons_tag. constructor; [done|].
  by apply same_texts_preorder.
Qed.

Lemma tag_elements_app (l k : list Element) :
  tag_elements (l ++ k) = tag_elements l ++ tag_elements k.
Proof. apply filter_app. Qed.

Lemma locate_other (ps : list PageElement) (a : PageElement)
    (prev sibs : list PageElement) :
  is_Tag a = false → tag_elements (locate ps a prev sibs) = [].
Proof.
  intros Ha. destruct a; [done|..]; simpl; unfold tag_elements;
    by rewrite filter_cons.
Qed.

Lemma locate_children_cons (ps : list PageElement) (c : PageElement)
    (cs prev : list PageElement) :
  locate_children (locate ps) (c :: cs) prev
  = locate ps c prev cs
    ++ locate_children (locate ps) cs (reverse (preorder c) ++ prev).
Proof. done. Qed.

Lemma locate_tag (ps : list PageElement) (n : string)
    (cs prev sibs : list PageElement) :
  tag_elements (locate ps (Tag n cs) prev sibs)
  = mkElement (Tag n cs) ps prev sibs
    :: tag_elements
         (locate_children (locate (Tag n cs :: ps)) cs (Tag n cs :: prev)).
Proof. simpl. unfold tag_elements. by rewrite filter_cons. Qed.

(** The tag elements of two such runs are at corresponding places. *)
Lemma locate_children_same_place (cs cs' : list PageElement) :
  same_texts cs cs' →
  ∀ ps ps' prev prev',
    Forall2 same_tag (tags prev) (tags prev') →
    Forall2 same_place
      (tag_elements (locate_children (locate ps) cs prev))
      (tag_elements (locate_children (locate ps') cs' prev')).
Proof.
  induction 1 as [|n cs cs' l k Hcs IHcs Hlk IHl|a b l k Ha Hb _ _ IHl
                  |a l k Ha _ _ IHl|b l k Hb _ _ IHl];
    intros ps ps' prev prev' Hprev.
  - constructor.
  - rewrite !locate_children_cons, !tag_elements_app, !locate_tag.
    apply Forall2_app.
    + constructor.
      * repeat split; [done..|]. by apply same_texts_tags.
      * apply IHcs. rewrite !tags_cons_tag. by constructor.
    + apply IHl. by apply (same_tag_previous n).
  - rewrite !locate_children_cons, !tag_elements_app, !locate_other by done.
    apply IHl. rewrite !preorder_other by done. simpl.
    by rewrite !tags_cons_other.
  - rewrite locate_children_cons, tag_elements_app, locate_other by done.
    apply IHl. rewrite preorder_other by done. simpl.
    by rewrite tags_cons_other.
  - rewrite locate_children_cons, tag_elements_app, locate_other by done.
    apply IHl. rewrite preorder_other by done. simpl.
    by rewrite tags_cons_other.
Qed.

Lemma find_all_tag_elements (sel : list string) (scope : list Element) :
  find_all sel (tag_elements scope) = find_all sel scope.
Proof.
  unfold find_all, tag_elements. rewrite list_filter_filter.
  apply list_filter_iff. intros el. split; [by intros [? _]|].
  intros Hel. split; [done|]. by eapply name_in_is_Tag.
Qed.

Lemma find_all_same_place (sel : list string) (l k : list Element) :
  Forall2 same_place l k →
  Forall2 same_place (find_all sel l) (find_all sel k).
Proof.
  unfold find_all. induction 1 as [|a b l k Hab _ IH]; [done|].
  rewrite !filter_cons.
  rewrite <- (same_tag_name_in sel _ _ (proj1 Hab)).
  case_decide; [by constructor | done].
Qed.

Lemma descendants_same_place (a b : Element) :
  same_place a b →
  Forall2 same_place (tag_elements (descendants a))
    (tag_elements (descendants b)).
Proof.
  intros (Hn & Hp & _). unfold descendants.
  destruct (node a) as [n cs| | |] eqn:Ha, (node b) as [n' cs'| | |] eqn:Hb;
    try done.
  destruct Hn as [<- Hcs]. apply locate_children_same_place; [done|].
  rewrite !tags_cons_tag. by constructor.
Qed.

Lemma soup_descendants_same_place (soup soup' : BeautifulSoup) :
  same_texts soup soup' →
  Forall2 same_place (tag_elements (soup_descendants soup))
    (tag_elements (soup_descendants soup')).
Proof.
  intros Hsoup. apply locate_children_same_place; [done | constructor].
Qed.

Lemma all_headers_same_place (soup soup' : BeautifulSoup) :
  same_texts soup soup' →
  Forall2 same_place (all_headers spec soup) (all_headers spec soup').
Proof.
  intros Hsoup. unfold all_headers.
  rewrite <- (find_all_tag_elements _ (body_descendants soup)).
  rewrite <- (find_all_tag_elements _ (body_descendants soup')).
  apply find_all_same_place. unfold body_descendants, soup_body.
  rewrite <- (find_all_tag_elements _ (soup_descendants soup)).
  rewrite <- (find_all_tag_elements _ (soup_descendants soup')).
  pose proof (find_all_same_place ["body"] _ _
                (soup_descendants_same_place _ _ Hsoup)) as Hbody.
  destruct Hbody as [|b b' ? ? Hb _]; simpl.
  - by apply soup_descendants_same_place.
  - by apply descendants_same_place.
Qed.

Lemma body_node_same_text (soup soup' : BeautifulSoup) :
  same_texts soup soup' →
  get_text (body_node soup) = get_text (body_node soup').
Proof.
  intros Hsoup. unfold body_node, soup_body.
  rewrite <- (find_all_tag_elements _ (soup_descendants soup)).
  rewrite <- (find_all_tag_elements _ (soup_descendants soup')).
  pose proof (find_all_same_place ["body"] _ _
                (soup_descendants_same_place _ _ Hsoup)) as Hbody.
  destruct Hbody as [|b b' ? ? (Hb & _) _]; simpl.
  - by apply (same_tag_get_text (Tag _ soup) (Tag _ soup')).
  - by apply same_tag_get_text.
Qed.

Lemma same_tags_texts (l k : list PageElement) :
  Forall2 same_tag l k → map get_text l = map get_text k.
Proof.
  induction 1 as [|a b l k Hab _ IH]; simpl; [done|].
  by rewrite (same_tag_get_text a b), IH.
Qed.

Lemma same_tags_before_header (sel : list string) (l k : list PageElement) :
  Forall2 same_tag l k →
  Forall2 same_tag (before_header sel l) (before_header sel k).
Proof.
  induction 1 as [|a b l k Hab _ IH]; simpl; [constructor|].
  rewrite <- (same_tag_name_in sel a b Hab).
  destruct (name_in sel a); by constructor.
Qed.

Lemma tag_texts_same (l k : list PageElement) :
  Forall2 same_tag (tags l) (tags k) → tag_texts l = tag_texts k.
Proof.
  intros Hlk. unfold tag_texts. fold (tags l). fold (tags k).
  by rewrite (same_tags_texts _ _ Hlk).
Qed.

Lemma same_place_pre_header_content (a b : Element) :
  same_place a b → pre_header_content a = pre_header_content b.
Proof.
  intros (_ & Hp & _). rewrite !pre_header_content_spaced.
  unfold pre_header_texts. f_equal. apply tag_texts_same.
  unfold tags. rewrite !filter_reverse. by apply Forall2_reverse.
Qed.

Lemma same_place_current_content (a b : Element) :
  same_place a b → current_content spec a = current_content spec b.
Proof.
  intros (_ & _ & Hs). rewrite !current_content_spaced.
  f_equal. apply tag_texts_same. unfold tags.
  rewrite <- !before_header_tags. by apply same_tags_before_header.
Qed.

Lemma same_place_header_document (a b : Element) :
  same_place a b → header_document spec a = header_document spec b.
Proof.
  intros Hab. unfold header_document.
  rewrite (same_place_current_content a b Hab).
  destruct Hab as (Hn & _ & _).
  by rewrite (same_tag_name_of _ _ Hn), (same_tag_get_text _ _ Hn).
Qed.

Lemma same_place_process_headers (l k : list Element)
    (documents : list Document) :
  Forall2 same_place l k →
  process_headers spec l documents = process_headers spec k documents.
Proof.
  intros Hlk. revert documents.
  induction Hlk as [|a b l k Hab _ IH]; intros documents; simpl; [done|].
  rewrite (same_place_header_document a b Hab).
  destruct (header_document spec b); simpl; [apply IH | done].
Qed.

End SameTexts.

(** X11.  The output depends on the document only through its tags and the
    stripped text of its strings: two documents with the same tags, nested
    in the same way, and the same visible strings give the same chunks.
    White space around a string, strings of white space between tags, and
    comments make no difference. *)
Theorem X11_same_texts_same_chunks (spec : list (string * string))
    (soup soup' : BeautifulSoup) :
  same_texts soup soup' →
  split_text_from_file spec soup = split_text_from_file spec soup'.
Proof.
  intros Hsoup. pose proof (all_headers_same_place spec _ _ Hsoup) as Hall.
  unfold split_text_from_file.
  destruct Hall as [|a b l k Hab Hlk].
  - by rewrite (body_node_same_text _ _ Hsoup).
  - rewrite (same_place_pre_header_content a b Hab).
    apply same_place_process_headers. by constructor.
Qed.

(** The statement above at a page with and without line breaks, padding
    and comments. *)
Lemma X11_same_texts_same_chunks_witness :
  split_text_from_file HEADERS_TO_SPLIT_ON Pages.spaced_page
  = split_text_from_file HEADERS_TO_SPLIT_ON Pages.dense_page.
Proof.
  apply (X11_same_texts_same_chunks HEADERS_TO_SPLIT_ON).
  apply same_texts_tag.
  - apply same_texts_str; [done|done|by intros [?|]|apply same_texts_nil].
  - apply same_texts_skip_l; [done|by intros [?|]|].
    apply same_texts_tag; [|apply same_texts_nil].
    apply same_texts_str; [done|done|by intros [?|]|].
    apply same_texts_skip_l; [done|by intros [?|]|apply same_texts_nil].
Defined.


(** X12.  Reading, parsing and splitting a file raises only what reading
    or parsing raises: the splitter adds no exception of its own, and when
    both succeed the documents returned are those of the parsed tree. *)
Theorem X12_split_text_from_file_path {World : Type}
    (env : Pipeline.Env World) (file : string) (st : Pipeline.state World) :
  match Pipeline.open_read env file (Pipeline.world st) with
  | (inl e, w) =>
      Pipeline.split_text_from_file_path env file st
      = (inl e, Pipeline.mkState w (Pipeline.logged st))
  | (inr html_content, w) =>
      match Pipeline.parse env html_content w with
      | (inl e, w') =>
          Pipeline.split_text_from_file_path env file st
          = (inl e, Pipeline.mkState w' (Pipeline.logged st))
      | (inr soup, w') =>
          ∃ documents,
            split_text_from_file HEADERS_TO_SPLIT_ON soup = Some documents
            ∧ Pipeline.split_text_from_file_path env file st
              = (inr documents, Pipeline.mkState w' (Pipeline.logged st))
      end
  end.
Proof.
  unfold Pipeline.split_text_from_file_path.
  destruct (Pipeline.open_read env file (Pipeline.world st))
    as [[e|html_content] w] eqn:Hopen;
    rewrite PipelineRuns.bind_run, (PipelineRuns.lift_run _ _ _ _ Hopen);
    [done|].
  cbv beta iota.
  destruct (Pipeline.parse env html_content w) as [[e|soup] w'] eqn:Hparse;
    rewrite PipelineRuns.bind_run,
      (PipelineRuns.lift_run_at _ _ _ _ _ Hparse); [done|].
  cbv beta iota.
  destruct (split_text_from_file_is_Some HEADERS_TO_SPLIT_ON soup)
    as [documents Hsome].
  exists documents. by rewrite Hsome.
Qed.

(** X13.  In a world where the file is read and parsed and every call
    succeeds, [split_html] without target and without interaction writes
    each output once: the pickle receives the chunks of the parsed file
    (those with metadata when [drop_empty_metadata] is on), and the text
    file their rendering. *)
Theorem X13_split_html_writes (html : string) (soup : BeautifulSoup)
    (str_of : gmap string string → string)
    (file_path output_pkl output_txt : string) (drop_empty_metadata : bool)
    (before : Recording.files) (l : list (Pipeline.level * string)) :
  Str.truthy (Str.strip html) = true →
  ∃ out records,
    split_text_from_file HEADERS_TO_SPLIT_ON soup = Some out
    ∧ Pipeline.split_html (Recording.recording html soup str_of)
        file_path output_pkl output_txt false None None drop_empty_metadata
        (Pipeline.mkState before l)
      = (inr tt,
         Pipeline.mkState
           (Recording.mkFiles
              (Recording.pickled before
               ++ [(output_pkl, Recording.kept drop_empty_metadata out)])
              (Recording.written before
               ++ [(output_txt,
                    Pipeline.render (Recording.recording html soup str_of)
                      (Recording.kept drop_empty_metadata out))]))
           (l ++ records)).
Proof.
  intros Hhtml.
  destruct (split_text_from_file_is_Some HEADERS_TO_SPLIT_ON soup)
    as [out Hout].
  exists out.
  assert (Hstart :
      Pipeline.split_html_body (Recording.recording html soup str_of)
        file_path output_pkl output_txt false None None drop_empty_metadata
        (Pipeline.mkState before l)
      = (all_html_header_splits ←
           Pipeline.select_splits (Recording.recording html soup str_of)
             drop_empty_metadata false out [];
         Pipeline.lift
           (Pipeline.pickle_dump (Recording.recording html soup str_of)
              all_html_header_splits output_pkl);;
         Pipeline.logger Pipeline.INFO
           ("Serialized splits saved to " +:+ output_pkl);;
         Pipeline.lift
           (Pipeline.write_text (Recording.recording html soup str_of)
              output_txt
              (Pipeline.render (Recording.recording html soup str_of)
                 all_html_header_splits));;
         Pipeline.logger Pipeline.INFO
           ("Split contents saved to " +:+ output_txt);;
         Pipeline.logger Pipeline.INFO
           ("Number of header splits: "
            +:+ pretty (length all_html_header_splits)))
          (Pipeline.mkState before
             (l ++ [(Pipeline.INFO,
                     "No specific target specified; processing full HTML content.")]))).
  { unfold Pipeline.split_html_body.
    rewrite PipelineRuns.bind_run.
    rewrite (PipelineRuns.lift_run_at _ _ _ (inr html) before eq_refl).
    cbv beta iota. rewrite PipelineRuns.bind_run.
    rewrite (PipelineRuns.preprocess_html_plain _ html None None _ soup
               before) by done.
    cbv beta iota. rewrite Hhtml. cbv beta iota delta [negb].
    rewrite PipelineRuns.bind_run.
    unfold Pipeline.split_text_from_file_path.
    rewrite PipelineRuns.bind_run.
    rewrite (PipelineRuns.lift_run_at _ _ _ (inr html) before eq_refl).
    cbv beta iota. rewrite PipelineRuns.bind_run.
    rewrite (PipelineRuns.lift_run_at _ _ _ (inr soup) before eq_refl).
    cbv beta iota. by rewrite Hout. }
  unfold Pipeline.split_html, Pipeline.try_except.
  rewrite Hstart. clear Hstart.
  rewrite PipelineRuns.bind_run.
  destruct drop_empty_metadata.
  - rewrite (PipelineRuns.select_splits_drop _ out []).
    eexists. split; [done|].
    unfold mbind, Pipeline.M_bind, Pipeline.lift, Pipeline.logger.
    cbn -[filter String.append]. rewrite <- !app_assoc. reflexivity.
  - rewrite (PipelineRuns.select_splits_keep_all _ out []).
    eexists. split; [done|].
    unfold mbind, Pipeline.M_bind, Pipeline.lift, Pipeline.logger.
    cbn -[filter String.append]. rewrite <- !app_assoc. reflexivity.
Qed.

(** The statement above for the page [<h1>A</h1>], with
    [drop_empty_metadata] on and nothing written before. *)
Lemma X13_split_html_writes_witness :
  ∃ out records,
    split_text_from_file HEADERS_TO_SPLIT_ON [Tag "h1" [NavigableString "A"]]
    = Some out
    ∧ Pipeline.split_html
        (Recording.recording "<h1>A</h1>" [Tag "h1" [NavigableString "A"]]
           (λ _, ""))
        "page.html" "out.pkl" "out.txt" false None None true
        (Pipeline.mkState (Recording.mkFiles [] []) [])
      = (inr tt,
         Pipeline.mkState
           (Recording.mkFiles
              ([] ++ [("out.pkl", Recording.kept true out)])
              ([] ++ [("out.txt",
                       Pipeline.render
                         (Recording.recording "<h1>A</h1>"
                            [Tag "h1" [NavigableString "A"]] (λ _, ""))
                         (Recording.kept true out))]))
           ([] ++ records)).
Proof.
  exact (X13_split_html_writes "<h1>A</h1>" [Tag "h1" [NavigableString "A"]]
           (λ _, "") "page.html" "out.pkl" "out.txt" true
           (Recording.mkFiles [] []) [] eq_refl).
Defined.

(** X14.  A target that is not complete is ignored: when [target_tag] or
    [target_class] is missing or is the empty string, [preprocess_html] and
    [split_html] do exactly what they do without any target. *)
Theorem X14_incomplete_target_ignored {World : Type}
    (env : Pipeline.Env World)
    (file_path output_pkl output_txt html_string : string)
    (interactive : bool) (target_tag target_class : option string)
    (drop_empty_metadata : bool) (st : Pipeline.state World) :
  Pipeline.truthy_opt target_tag && Pipeline.truthy_opt target_class = false →
  Pipeline.preprocess_html env html_string target_tag target_class st
  = Pipeline.preprocess_html env html_string None None st
  ∧ Pipeline.split_html env file_path output_pkl output_txt interactive
      target_tag target_class drop_empty_metadata st
    = Pipeline.split_html env file_path output_pkl output_txt interactive
        None None drop_empty_metadata st.
Proof.
  intros Hnone.
  assert (Hpre : ∀ html st',
            Pipeline.preprocess_html env html target_tag target_class st'
            = Pipeline.preprocess_html env html None None st').
  { intros html st'. unfold Pipeline.preprocess_html.
    rewrite !PipelineRuns.bind_run. by rewrite Hnone. }
  split; [apply Hpre|].
  unfold Pipeline.split_html, Pipeline.try_except, Pipeline.split_html_body.
  rewrite !(PipelineRuns.bind_run (Pipeline.lift _)).
  destruct (Pipeline.lift (Pipeline.open_read env file_path) st)
    as [[e|html] st']; [done|].
  rewrite !(PipelineRuns.bind_run (Pipeline.preprocess_html _ _ _ _)).
  by rewrite Hpre.
Qed.

(** The statement above for a tag given without a class, in a world
    without files. *)
Lemma X14_incomplete_target_ignored_witness :
  Pipeline.preprocess_html Pipeline.no_files "<h1>A</h1>" (Some "div") None
    (Pipeline.mkState tt [])
  = Pipeline.preprocess_html Pipeline.no_files "<h1>A</h1>" None None
      (Pipeline.mkState tt [])
  ∧ Pipeline.split_html Pipeline.no_files "page.html" "out.pkl" "out.txt"
      false (Some "div") None true (Pipeline.mkState tt [])
    = Pipeline.split_html Pipeline.no_files "page.html" "out.pkl" "out.txt"
        false None None true (Pipeline.mkState tt []).
Proof.
  exact (X14_incomplete_target_ignored Pipeline.no_files "page.html"
           "out.pkl" "out.txt" "<h1>A</h1>" false (Some "div") None true
           (Pipeline.mkState tt []) eq_refl).
Defined.
